(** * SaasClient: token lifecycle, HTTP verbs, page and checkpoint walkers

    A shallow embedding of [index.js] (class [SaasClient]) and of the second
    class definition of the same name that ships next to it.

    Conventions of the embedding.
    - JavaScript numbers are the integers the code handles (identifiers,
      checkpoints, seconds, milliseconds); they are [Z], and a template
      literal renders them as their decimal numeral.
    - Strings are [string], one character per code unit below 256;
      [null]/[undefined] is [None] of an [option].
    - An [async] method is a computation in the monad [M]: it threads the
      private fields of the client and the outside world (clock, servers,
      log of requests) and ends by returning or by throwing.
    - Server answers follow the interface contract of their endpoint: a list
      page is [{results; next}], an event page is
      [{events; remaining_count; next_checkpoint}], a tagging answer is
      [{tags}], a token answer is [{access_token; expires_in}]. *)

From Stdlib Require Import ZArith List String Ascii Bool Lia DecimalString.
Import ListNotations.

Open Scope string_scope.
Open Scope Z_scope.

(** ** Requests, answers and errors *)

Inductive verb : Type := GET | POST | PATCH | PUT | DELETE.

(** The [Authorization] header. [Basic c] stands for
    [`Basic ${base64(c)}`], [Bearer t] for [`Bearer ${t}`]. *)
Inductive authorization : Type :=
| Basic (credentials : string)
| Bearer (tok : option string).

(** The [data] field of an axios call. *)
Inductive payload : Type :=
| NoData
| FormData (body : string)
| NoteData (note : string)
| TagsData (tags : list string)
| OutcomeData (outcome : string).

Record request : Type := mkRequest {
  r_method : verb;
  r_url : string;
  r_auth : authorization;
  r_data : payload
}.

(** [err.response] of an axios failure; [config_url] is
    [err.response.config.url], the URL of the request that failed. *)
Record response : Type := mkResponse {
  status : Z;
  statusText : string;
  config_url : string
}.

Inductive error : Type :=
| AxiosError (resp : option response)
    (* the error object of the transport library; [resp] is [err.response] *)
| Normalized (st : Z) (text : string) (url : string)
    (* the object literal [{status, statusText, url}] *)
| TypeError (message : string).

(** What the server side does with one request: it answers 2xx with a body,
    answers with an error status, or never answers. [latency] is the time in
    milliseconds the call takes. *)
Inductive outcome (B : Type) : Type :=
| Ok (body : B)
| Rejected (st : Z) (text : string)
| NoResponse.
Arguments Ok {B} body.
Arguments Rejected {B} st text.
Arguments NoResponse {B}.

Record reply (B : Type) : Type := mkReply {
  latency : N;
  answer : outcome B
}.
Arguments mkReply {B} latency answer.
Arguments latency {B} r.
Arguments answer {B} r.

Record token_body : Type := mkTokenBody {
  access_token : string;
  expires_in : Z
}.

Record page (T : Type) : Type := mkPage {
  results : list T;
  next : option string
}.
Arguments mkPage {T} results next.
Arguments results {T} p.
Arguments next {T} p.

Record event_page (T : Type) : Type := mkEventPage {
  events : list T;
  remaining_count : Z;
  next_checkpoint : Z
}.
Arguments mkEventPage {T} events remaining_count next_checkpoint.
Arguments events {T} e.
Arguments remaining_count {T} e.
Arguments next_checkpoint {T} e.

Record tags_body : Type := mkTagsBody {
  tags : list string
}.

(** ** The client and the world around it *)

(** The private fields of [SaasClient]. *)
Record Client : Type := mkClient {
  siteURL : string;
  clientID : string;
  secret : string;
  sleepTime : Z;
  token : option string;
  tokenRefresh : Z;
  version : string
}.

(** The outside world: [now] is what [Date.now()] reads (milliseconds),
    [oauth] and [api] are the answers the two servers will give to the next
    requests, in order, and [trace] is the log of the requests issued so far,
    oldest first. A request that finds its server without an answer left
    fails the way an unreachable host does, with no response. *)
Record World (B : Type) : Type := mkWorld {
  client : Client;
  now : Z;
  oauth : list (reply token_body);
  api : list (reply B);
  trace : list request
}.
Arguments mkWorld {B} client now oauth api trace.
Arguments client {B} w.
Arguments now {B} w.
Arguments oauth {B} w.
Arguments api {B} w.
Arguments trace {B} w.

Definition set_token (t : option string) (c : Client) : Client :=
  mkClient (siteURL c) (clientID c) (secret c) (sleepTime c)
           t (tokenRefresh c) (version c).

Definition set_tokenRefresh (r : Z) (c : Client) : Client :=
  mkClient (siteURL c) (clientID c) (secret c) (sleepTime c)
           (token c) r (version c).

Definition with_client {B} (f : Client -> Client) (w : World B) : World B :=
  mkWorld (f (client w)) (now w) (oauth w) (api w) (trace w).

Definition advance {B} (ms : Z) (w : World B) : World B :=
  mkWorld (client w) (now w + ms) (oauth w) (api w) (trace w).

Definition record {B} (r : request) (w : World B) : World B :=
  mkWorld (client w) (now w) (oauth w) (api w) (trace w ++ [r]).

Definition pop_oauth {B} (w : World B) : World B :=
  mkWorld (client w) (now w) (tl (oauth w)) (api w) (trace w).

Definition pop_api {B} (w : World B) : World B :=
  mkWorld (client w) (now w) (oauth w) (tl (api w)) (trace w).

(** ** The monad of asynchronous methods

    A computation runs in a world and either does not finish ([None], only a
    loop that used up its iteration budget) or finishes in a new world by
    returning a value or throwing. Effects made before a throw remain. *)

Inductive result (A : Type) : Type :=
| Return (a : A)
| Throw (e : error).
Arguments Return {A} a.
Arguments Throw {A} e.

Definition M (B A : Type) : Type := World B -> option (result A * World B).

Definition ret {B A} (a : A) : M B A := fun w => Some (Return a, w).

Definition throw {B A} (e : error) : M B A := fun w => Some (Throw e, w).

Definition bind {B A C} (m : M B A) (k : A -> M B C) : M B C :=
  fun w =>
    match m w with
    | Some (Return a, w') => k a w'
    | Some (Throw e, w') => Some (Throw e, w')
    | None => None
    end.

(** [try { m } catch (err) { h err }] *)
Definition try_catch {B A} (m : M B A) (h : error -> M B A) : M B A :=
  fun w =>
    match m w with
    | Some (Return a, w') => Some (Return a, w')
    | Some (Throw e, w') => h e w'
    | None => None
    end.

Declare Scope js_scope.
Delimit Scope js_scope with js.
Notation "x <- m ;; k" := (bind m (fun x => k))
  (at level 61, m at next level, right associativity) : js_scope.
Notation "m ;; k" := (bind m (fun _ => k))
  (at level 61, right associativity) : js_scope.
Open Scope js_scope.

Definition get_field {B A} (f : Client -> A) : M B A :=
  fun w => Some (Return (f (client w)), w).

Definition modify_client {B} (f : Client -> Client) : M B unit :=
  fun w => Some (Return tt, with_client f w).

(** [Date.now()] *)
Definition Date_now {B} : M B Z :=
  fun w => Some (Return (now w), w).

(** The transport. The request is logged, the server's next answer is
    consumed and the clock moves by the latency of the call. A failure with a
    response carries that response, whose [config.url] is the request's URL. *)
Definition settle {B A} (req : request) (r : option (reply A)) (w : World B)
  : option (result A * World B) :=
  match r with
  | None => Some (Throw (AxiosError None), w)
  | Some rp =>
      let w' := advance (Z.of_N (latency rp)) w in
      match answer rp with
      | Ok b => Some (Return b, w')
      | Rejected st text =>
          Some (Throw (AxiosError (Some (mkResponse st text (r_url req)))), w')
      | NoResponse => Some (Throw (AxiosError None), w')
      end
  end.

Definition axios_oauth {B} (req : request) : M B token_body :=
  fun w => settle req (hd_error (oauth w)) (pop_oauth (record req w)).

Definition axios {B} (req : request) : M B B :=
  fun w => settle req (hd_error (api w)) (pop_api (record req w)).

(** ** Values as JavaScript sees them *)

(** Truthiness of a string-or-null value: [null], [undefined] and the empty
    string are falsy. *)
Definition truthy (v : option string) : bool :=
  match v with
  | None => false
  | Some s => negb (s =? "")%string
  end.

(** A number inside a template literal. *)
Definition show (n : Z) : string := NilZero.string_of_int (Z.to_int n).

(** [Math.floor(ms / 1000)] *)
Definition seconds (ms : Z) : Z := ms / 1000.

(** ** [String.prototype.replace] with the two host patterns

    [next.replace(/.*vectra.ai\/api\/v3[^\/]*/, "")] removes the first match
    of the pattern. Both patterns have the shape [.*] followed by a tail, so
    one backtracking matcher serves both: [.] is any character but a line
    terminator, [*] is greedy, and the search tries start positions from the
    left. *)

Definition line_terminator (c : ascii) : bool :=
  ((c =? "010") || (c =? "013"))%char.

(** [strip_literal p s] is [Some r] when [s] is [p] followed by [r]. *)
Fixpoint strip_literal (p s : string) : option string :=
  match p, s with
  | EmptyString, _ => Some s
  | String a p', String b s' =>
      if (a =? b)%char then strip_literal p' s' else None
  | String _ _, EmptyString => None
  end.

(** [.] *)
Definition any_char (s : string) : option string :=
  match s with
  | EmptyString => None
  | String c r => if line_terminator c then None else Some r
  end.

(** [[^\/]*], greedy with nothing after it: drop the longest run without a
    slash. *)
Fixpoint skip_non_slash (s : string) : string :=
  match s with
  | EmptyString => EmptyString
  | String c r => if (c =? "/")%char then s else skip_non_slash r
  end.

(** [vectra.ai\/api\/v3[^\/]*] anchored at the head of [s]; the result is
    what follows the match. *)
Definition tail_api_v3 (s : string) : option string :=
  match strip_literal "vectra" s with
  | None => None
  | Some s1 =>
      match any_char s1 with
      | None => None
      | Some s2 =>
          match strip_literal "ai/api/v3" s2 with
          | None => None
          | Some s3 => Some (skip_non_slash s3)
          end
      end
  end.

(** [vectra.ai] anchored at the head of [s]. *)
Definition tail_host (s : string) : option string :=
  match strip_literal "vectra" s with
  | None => None
  | Some s1 =>
      match any_char s1 with
      | None => None
      | Some s2 => strip_literal "ai" s2
      end
  end.

Section Replace.

Variable tail : string -> option string.

(** [.*tail] anchored at the head of [s]: the longest [.*] is tried
    first. *)
Fixpoint match_here (s : string) : option string :=
  match s with
  | EmptyString => tail s
  | String c r =>
      if line_terminator c then tail s
      else
        match match_here r with
        | Some rest => Some rest
        | None => tail s
        end
  end.

(** [s.replace(/.*tail/, "")] *)
Fixpoint replace_first (s : string) : string :=
  match match_here s with
  | Some rest => rest
  | None =>
      match s with
      | EmptyString => EmptyString
      | String c r => String c (replace_first r)
      end
  end.

End Replace.

(** ** Helpers shared by both class definitions *)

(** The answer a plain object gives to [options[option]] inside a template
    literal. *)
Fixpoint lookup (k : string) (o : list (string * string)) : string :=
  match o with
  | [] => "undefined"
  | (k', v) :: o' => if (k =? k')%string then v else lookup k o'
  end.

(** [for (let option of Object.keys(options)) extra += `&${option}=${options[option]}`]
    over the keys [ks]. *)
Fixpoint add_options (ks : list string) (o : list (string * string))
         (extra : string) : string :=
  match ks with
  | [] => extra
  | k :: ks' => add_options ks' o (extra ++ "&" ++ k ++ "=" ++ lookup k o)
  end.

(** [a.splice(i, 1)] *)
Definition splice1 {A} (i : nat) (a : list A) : list A :=
  firstn i a ++ skipn (S i) a.

(** [for (let i = a.length - 1; i >= 0; i--) if (a[i] == tag) a.splice(i, 1)],
    with [k] standing for [i + 1]. *)
Fixpoint delete_tag_loop (k : nat) (tag : string) (a : list string)
  : list string :=
  match k with
  | O => a
  | S i =>
      delete_tag_loop i tag
        (match nth_error a i with
         | Some t => if (t =? tag)%string then splice1 i a else a
         | None => a
         end)
  end.

(** [ids.join(",")] for an array of numbers. *)
Fixpoint join (ids : list Z) : string :=
  match ids with
  | [] => ""
  | [id] => show id
  | id :: ids' => show id ++ "," ++ join ids'
  end.

(** [a.tags] for an array [a]: an array has no such property. *)
Definition tags_of_array (a : list string) : option (list string) := None.

(** The [catch] block of the verbs that normalise. *)
Definition normalise {B A} (err : error) : M B A :=
  match err with
  | AxiosError (Some r) =>
      throw (Normalized (status r) (statusText r) (config_url r))
  | _ => throw err
  end.

(** ** The first class definition (constructor with a [version]) *)

Module SaasClient.

(** [constructor(siteURL, clientID, secret, version = 3)] with the field
    initialisers. *)
Definition constructor (siteURL clientID secret : string)
           (version : option Z) : Client :=
  let version := match version with Some v => v | None => 3 end in
  mkClient siteURL clientID secret 500 None 0 ("v" ++ show version).

(** [#sleep(timeout)]: the timer fires after [timeout] milliseconds. *)
Definition sleep {B} (timeout : Z) : M B bool :=
  fun w => Some (Return true, advance timeout w).

Definition getToken {B} : M B string :=
  try_catch
    (clientID <- get_field clientID ;;
     secret <- get_field secret ;;
     siteURL <- get_field siteURL ;;
     let token := clientID ++ ":" ++ secret in
     data <- axios_oauth
               (mkRequest POST (siteURL ++ "/oauth2/token") (Basic token)
                          (FormData "grant_type=client_credentials")) ;;
     now <- Date_now ;;
     modify_client (set_tokenRefresh (seconds now + expires_in data - 100)) ;;
     ret (access_token data))
    (fun err => throw err).

Definition checkToken {B} : M B bool :=
  try_catch
    (token <- get_field token ;;
     tokenRefresh <- get_field tokenRefresh ;;
     now <- Date_now ;;
     (if negb (truthy token) || (tokenRefresh <? seconds now) then
        token <- getToken ;; modify_client (set_token (Some token))
      else ret tt) ;;
     sleepTime <- get_field sleepTime ;;
     sleep sleepTime ;;
     ret true)
    (fun err => throw err).

(** The axios call shared by the five verbs. *)
Definition call {B} (method : verb) (url : string) (body : payload)
  : M B B :=
  siteURL <- get_field siteURL ;;
  version <- get_field version ;;
  token <- get_field token ;;
  axios (mkRequest method (siteURL ++ "/api/" ++ version ++ url)
                   (Bearer token) body).

Definition get {B} (url : string) : M B B :=
  try_catch (checkToken ;; call GET url NoData) normalise.

Definition post {B} (url : string) (body : payload) : M B B :=
  try_catch (checkToken ;; call POST url body) normalise.

Definition patch {B} (url : string) (body : payload) : M B B :=
  try_catch (checkToken ;; call PATCH url body) (fun err => throw err).

Definition put {B} (url : string) (body : payload) : M B B :=
  try_catch (checkToken ;; call PUT url body) normalise.

Definition delete {B} (url : string) (body : payload) : M B B :=
  try_catch (checkToken ;; call DELETE url body) (fun err => throw err).

(** The accumulator [acc] is the variable [results].
    [while (data.remaining_count > 0) { data = await this.#get(`${topic}?limit=1000&from=${data.next_checkpoint}`); results = results.concat(data.events) }] *)
Fixpoint changes_loop {T} (fuel : nat) (topic : string)
         (remaining next_cp : Z) (acc : list T)
  : M (event_page T) (list T) :=
  match fuel with
  | O => fun _ => None
  | S fuel' =>
      if 0 <? remaining then
        data <- get (topic ++ "?limit=1000&from=" ++ show next_cp) ;;
        changes_loop fuel' topic (remaining_count data)
                     (next_checkpoint data) (acc ++ events data)
      else ret acc
  end.

Definition getAccountChanges {T} (fuel : nat) (checkpoint : option Z)
  : M (event_page T) (list T) :=
  let checkpoint := match checkpoint with Some c => c | None => 0 end in
  try_catch
    (changes_loop fuel "/events/account_scoring" 1 checkpoint [])
    (fun err => throw err).

Definition getDetectionChanges {T} (fuel : nat) (checkpoint : option Z)
  : M (event_page T) (list T) :=
  let checkpoint := match checkpoint with Some c => c | None => 0 end in
  try_catch
    (changes_loop fuel "/events/account_detection" 1 checkpoint [])
    (fun err => throw err).

Definition getDetection {B} (detectionID : Z) : M B B :=
  try_catch (get ("/detections/" ++ show detectionID))
            (fun err => throw err).

(** The accumulator [acc] is the variable [results].
    [while (data.next) { data = await this.#get(data.next.replace(/.*vectra.ai\/api\/v3[^\/]*/, ""), true); results = results.concat(data.results) }] *)
Fixpoint next_loop {T} (fuel : nat) (next_url : option string)
         (acc : list T) : M (page T) (list T) :=
  match fuel with
  | O => fun _ => None
  | S fuel' =>
      if truthy next_url then
        match next_url with
        | Some url =>
            data <- get (replace_first tail_api_v3 url) ;;
            next_loop fuel' (next data) (acc ++ results data)
        | None => throw (TypeError "Cannot read properties of null")
        end
      else ret acc
  end.

(** [options] is [None] for a missing argument and otherwise the object,
    as its properties in the order [Object.keys] lists them. *)
Definition getAllDetections {T} (fuel : nat)
           (options : option (list (string * string)))
  : M (page T) (list T) :=
  try_catch
    (let extra :=
       match options with
       | Some o => add_options (map fst o) o ""
       | None => ""
       end in
     next_loop fuel (Some ("/detections?page=1" ++ extra)) [])
    (fun err => throw err).

Definition getAllAccounts {T} (fuel : nat)
           (options : option (list (string * string)))
  : M (page T) (list T) :=
  try_catch
    (let extra :=
       match options with
       | Some o => add_options (map fst o) o ""
       | None => ""
       end in
     next_loop fuel (Some ("/accounts?page=1" ++ extra)) [])
    (fun err => throw err).

Definition getDetectionTags (detectionID : Z)
  : M tags_body (list string) :=
  try_catch
    (data <- get ("/tagging/detection/" ++ show detectionID) ;;
     ret (tags data))
    (fun err => throw err).

Definition addDetectionTags (detectionID : Z) (tags : list string)
  : M tags_body tags_body :=
  try_catch
    (existingTags <- getDetectionTags detectionID ;;
     let tags := (tags ++ existingTags)%list in
     patch ("/tagging/detection/" ++ show detectionID) (TagsData tags))
    (fun err => throw err).

Definition deleteDetectionTag (detectionID : Z) (tag : string)
  : M tags_body tags_body :=
  try_catch
    (existingTags <- getDetectionTags detectionID ;;
     let existingTags :=
       delete_tag_loop (List.length existingTags) tag existingTags in
     patch ("/tagging/detection/" ++ show detectionID)
           (TagsData existingTags))
    (fun err => throw err).

Definition clearDetectionTags (detectionID : Z) : M tags_body tags_body :=
  try_catch
    (patch ("/tagging/detection/" ++ show detectionID) (TagsData []))
    (fun err => throw err).

Definition getAccountTags (accountID : Z) : M tags_body (list string) :=
  try_catch
    (data <- get ("/tagging/account/" ++ show accountID) ;;
     ret (tags data))
    (fun err => throw err).

Definition addAccountTags (accountID : Z) (tags : list string)
  : M tags_body tags_body :=
  try_catch
    (existingTags <- getAccountTags accountID ;;
     let tags := (tags ++ existingTags)%list in
     patch ("/tagging/account/" ++ show accountID) (TagsData tags))
    (fun err => throw err).

Definition deleteAccountTag (accountID : Z) (tag : string)
  : M tags_body tags_body :=
  try_catch
    (existingTags <- getAccountTags accountID ;;
     let existingTags :=
       delete_tag_loop (List.length existingTags) tag existingTags in
     patch ("/tagging/account/" ++ show accountID)
           (TagsData existingTags))
    (fun err => throw err).

Definition getTriageRule {B} (ruleID : Z) : M B B :=
  try_catch (get ("/rules/" ++ show ruleID)) (fun err => throw err).

Definition deleteTriageRule {B} (ruleID : Z) : M B B :=
  try_catch (delete ("/rules" ++ show ruleID) NoData)
            (fun err => throw err).

Definition resolveAssignment {B} (assignmentID : Z) (outcomeID : string)
  : M B B :=
  try_catch
    (put ("/assignments/" ++ show assignmentID ++ "/resolve")
         (OutcomeData outcomeID))
    (fun err => throw err).

Definition addDetectionNote {B} (id : Z) (note : string) : M B B :=
  try_catch (post ("/detections/" ++ show id ++ "/notes") (NoteData note))
            (fun err => throw err).

Definition updateDetectionNote {B} (detectionID noteID : Z) (note : string)
  : M B B :=
  try_catch
    (patch ("/detections/" ++ show detectionID ++ "/notes/" ++ show noteID)
           (NoteData note))
    (fun err => throw err).

Definition deleteDetectionNote {B} (detectionID noteID : Z) : M B B :=
  try_catch
    (delete ("/detections/" ++ show detectionID ++ "/notes/" ++ show noteID)
            NoData)
    (fun err => throw err).

Definition getLatestAccountCheckpoint {T} : M (event_page T) Z :=
  try_catch
    (data <- get "/events/account_scoring?limit=1000&from=999999999999" ;;
     data <- get ("/events/account_scoring?limit=1000&from="
                    ++ show (next_checkpoint data)) ;;
     ret (next_checkpoint data))
    (fun err => throw err).

Definition getLatestDetectionCheckpoint {T} : M (event_page T) Z :=
  try_catch
    (data <- get "/events/account_detection?limit=1000&from=999999999999" ;;
     data <- get ("/events/account_detection?limit=1000&from="
                    ++ show (next_checkpoint data)) ;;
     ret (next_checkpoint data))
    (fun err => throw err).

Definition getDetections {T} (fuel : nat) (detectionIDs : list Z)
  : M (page T) (list T) :=
  try_catch
    (next_loop fuel (Some ("/detections/?id=" ++ join detectionIDs)) [])
    (fun err => throw err).

Definition getAccounts {T} (fuel : nat) (accountIDs : list Z)
  : M (page T) (list T) :=
  try_catch
    (next_loop fuel (Some ("/accounts/?id=" ++ join accountIDs)) [])
    (fun err => throw err).

Definition getAssignments {T} (fuel : nat) : M (page T) (list T) :=
  try_catch (next_loop fuel (Some "/assignments") [])
            (fun err => throw err).

Definition getUsers {T} (fuel : nat) : M (page T) (list T) :=
  try_catch (next_loop fuel (Some "/users") []) (fun err => throw err).

Definition clearAccountTags (accountID : Z) : M tags_body tags_body :=
  try_catch
    (patch ("/tagging/account/" ++ show accountID) (TagsData []))
    (fun err => throw err).

Definition getHostTags (hostID : Z) : M tags_body (list string) :=
  try_catch
    (data <- get ("/tagging/host/" ++ show hostID) ;;
     ret (tags data))
    (fun err => throw err).

Definition addHostTags (hostID : Z) (tags : list string)
  : M tags_body tags_body :=
  try_catch
    (existingTags <- getHostTags hostID ;;
     let tags := (tags ++ existingTags)%list in
     patch ("/tagging/host/" ++ show hostID) (TagsData tags))
    (fun err => throw err).

Definition deleteHostTag (hostID : Z) (tag : string)
  : M tags_body tags_body :=
  try_catch
    (existingTags <- getHostTags hostID ;;
     let existingTags :=
       delete_tag_loop (List.length existingTags) tag existingTags in
     patch ("/tagging/host/" ++ show hostID)
           (TagsData existingTags))
    (fun err => throw err).

Definition clearHostTags (hostID : Z) : M tags_body tags_body :=
  try_catch
    (patch ("/tagging/host/" ++ show hostID) (TagsData []))
    (fun err => throw err).

End SaasClient.

(** ** The second class definition (no [version], margin-free expiry) *)

Module SaasClient2.

(** [constructor(siteURL, clientID, secret)]; this class has no
    [#version] field, the record's [version] is not read. *)
Definition constructor (siteURL clientID secret : string) : Client :=
  mkClient siteURL clientID secret 500 None 0 "".

Definition sleep {B} (timeout : Z) : M B bool :=
  fun w => Some (Return true, advance timeout w).

Definition getToken {B} : M B string :=
  clientID <- get_field clientID ;;
  secret <- get_field secret ;;
  siteURL <- get_field siteURL ;;
  let token := clientID ++ ":" ++ secret in
  data <- axios_oauth
            (mkRequest POST (siteURL ++ "/oauth2/token") (Basic token)
                       (FormData "grant_type=client_credentials")) ;;
  now <- Date_now ;;
  modify_client (set_tokenRefresh (seconds now + expires_in data)) ;;
  ret (access_token data).

Definition checkToken {B} : M B bool :=
  token <- get_field token ;;
  tokenRefresh <- get_field tokenRefresh ;;
  now <- Date_now ;;
  (if negb (truthy token) || (tokenRefresh <? seconds now) then
     token <- getToken ;; modify_client (set_token (Some token))
   else ret tt) ;;
  sleepTime <- get_field sleepTime ;;
  sleep sleepTime ;;
  ret true.

Definition call {B} (method : verb) (url : string) (body : payload)
  : M B B :=
  siteURL <- get_field siteURL ;;
  token <- get_field token ;;
  axios (mkRequest method (siteURL ++ "/api/v3" ++ url) (Bearer token) body).

Definition get {B} (url : string) : M B B :=
  checkToken ;; call GET url NoData.

Definition patch {B} (url : string) (body : payload) : M B B :=
  checkToken ;; call PATCH url body.

Definition delete {B} (url : string) : M B B :=
  checkToken ;; call DELETE url NoData.

(** The accumulator [acc] is the variable [results].
    [while (data.next) { data = await this.#get(data.next.replace(/.*vectra.ai/, ""), true); results = results.concat(data.results) }] *)
Fixpoint next_loop {T} (fuel : nat) (next_url : option string)
         (acc : list T) : M (page T) (list T) :=
  match fuel with
  | O => fun _ => None
  | S fuel' =>
      if truthy next_url then
        match next_url with
        | Some url =>
            data <- get (replace_first tail_host url) ;;
            next_loop fuel' (next data) (acc ++ results data)
        | None => throw (TypeError "Cannot read properties of null")
        end
      else ret acc
  end.

(** [Object.keys(options)] throws on a missing argument. *)
Definition getAllDetections {T} (fuel : nat)
           (options : option (list (string * string)))
  : M (page T) (list T) :=
  match options with
  | None => throw (TypeError "Cannot convert undefined or null to object")
  | Some o =>
      let extra := add_options (map fst o) o "" in
      next_loop fuel (Some ("/detections?page=1" ++ extra)) []
  end.

Definition getAllAccounts {T} (fuel : nat)
           (options : option (list (string * string)))
  : M (page T) (list T) :=
  match options with
  | None => throw (TypeError "Cannot convert undefined or null to object")
  | Some o =>
      let extra := add_options (map fst o) o "" in
      next_loop fuel (Some ("/accounts?page=1" ++ extra)) []
  end.

Definition getTriageRule {B} (ruleID : Z) : M B B :=
  get ("/rules/" ++ show ruleID).

Definition deleteTriageRule {B} (ruleID : Z) : M B B :=
  delete ("/rules" ++ show ruleID).

Definition getDetectionTags (detectionID : Z)
  : M tags_body (list string) :=
  data <- get ("/tagging/detection/" ++ show detectionID) ;;
  ret (tags data).

(** [existingTags] is the array that [getDetectionTags] returns, so
    [existingTags.tags] is [undefined] and reading its [length] throws. *)
Definition deleteDetectionTag (detectionID : Z) (tag : string)
  : M tags_body tags_body :=
  existingTags <- getDetectionTags detectionID ;;
  match tags_of_array existingTags with
  | None =>
      throw (TypeError "Cannot read properties of undefined (reading 'length')")
  | Some existingTags_tags =>
      patch ("/tagging/detection/" ++ show detectionID)
            (TagsData (delete_tag_loop (List.length existingTags_tags) tag
                                       existingTags_tags))
  end.

Definition getAccountTags (accountID : Z) : M tags_body (list string) :=
  data <- get ("/tagging/account/" ++ show accountID) ;;
  ret (tags data).

Definition deleteAccountTag (accountID : Z) (tag : string)
  : M tags_body tags_body :=
  existingTags <- getAccountTags accountID ;;
  match tags_of_array existingTags with
  | None =>
      throw (TypeError "Cannot read properties of undefined (reading 'length')")
  | Some existingTags_tags =>
      patch ("/tagging/account/" ++ show accountID)
            (TagsData (delete_tag_loop (List.length existingTags_tags) tag
                                       existingTags_tags))
  end.

End SaasClient2.

(** ** Vocabulary of the statements *)

(** The OAuth2 exchange request of a client. *)
Definition token_request (c : Client) : request :=
  mkRequest POST (siteURL c ++ "/oauth2/token")
            (Basic (clientID c ++ ":" ++ secret c))
            (FormData "grant_type=client_credentials").

(** The request a verb of the first class sends for [path]. *)
Definition api_request (c : Client) (method : verb) (path : string)
           (body : payload) : request :=
  mkRequest method (siteURL c ++ "/api/" ++ version c ++ path)
            (Bearer (token c)) body.

(** The same for the second class, whose base path is fixed. *)
Definition api_request2 (c : Client) (method : verb) (path : string)
           (body : payload) : request :=
  mkRequest method (siteURL c ++ "/api/v3" ++ path) (Bearer (token c)) body.

(** The client holds a token that the validity check accepts at instant [t]
    (milliseconds). *)
Definition token_valid_at (c : Client) (t : Z) : Prop :=
  truthy (token c) = true /\ seconds t <= tokenRefresh c.

(** The time the calls answered by [rs] take: for each, the throttle plus the
    latency of the call. *)
Definition elapsed {B} (pause : Z) (rs : list (reply B)) : Z :=
  fold_right (fun r t => pause + Z.of_N (latency r) + t) 0 rs.

(** The path the page walker requests after page [p]. *)
Definition next_path {T} (p : page T) : string :=
  match next p with
  | Some url => replace_first tail_api_v3 url
  | None => ""
  end.

(** The world after [rs] were served to the requests [reqs], the queue of
    answers being left at [rest]. *)
Definition served {B} (w : World B) (rs rest : list (reply B))
           (reqs : list request) : World B :=
  mkWorld (client w) (now w + elapsed (sleepTime (client w)) rs) (oauth w)
          rest (trace w ++ reqs).

(** The [extra] string of the page walkers. *)
Definition extra_of (options : option (list (string * string))) : string :=
  match options with
  | Some o => add_options (map fst o) o ""
  | None => ""
  end.

Definition is_fetch (q : request) : bool :=
  match r_method q with
  | GET => true
  | _ => false
  end.

(** The URLs of the GET requests in a log, oldest first. *)
Definition fetched (t : list request) : list string :=
  map r_url (filter is_fetch t).

(** The URL the first class requests for [path]. *)
Definition url_of (c : Client) (path : string) : string :=
  siteURL c ++ "/api/" ++ version c ++ path.

(** [fetch_serves w path ps w']: from the world [w], successive calls of
    [#get], the first for [path] and each later one for the stripped [next]
    of the page before, return the pages [ps] one after the other and leave
    the world [w']. *)
Fixpoint fetch_serves {T} (w : World (page T)) (path : string)
         (ps : list (page T)) (w' : World (page T)) : Prop :=
  match ps with
  | [] => w' = w
  | p :: ps' =>
      exists w1,
        SaasClient.get path w = Some (Return p, w1)
        /\ fetch_serves w1 (next_path p) ps' w'
  end.

(** The path of a checkpoint walk over [topic] from [cp]. *)
Definition changes_path (topic : string) (cp : Z) : string :=
  topic ++ "?limit=1000&from=" ++ show cp.

(** [fetch_serves_events w topic cp ps w']: from the world [w], successive
    calls of [#get] on [topic], the first from the checkpoint [cp] and each
    later one from the [next_checkpoint] of the page before, return the
    event pages [ps] one after the other and leave the world [w']. *)
Fixpoint fetch_serves_events {T} (w : World (event_page T)) (topic : string)
         (cp : Z) (ps : list (event_page T)) (w' : World (event_page T))
  : Prop :=
  match ps with
  | [] => w' = w
  | p :: ps' =>
      exists w1,
        SaasClient.get (changes_path topic cp) w = Some (Return p, w1)
        /\ fetch_serves_events w1 topic (next_checkpoint p) ps' w'
  end.

(** The paths requested while [fetch_serves] goes through [ps] from [path],
    and the same for [fetch_serves_events]. *)
Fixpoint paths_of {T} (path : string) (ps : list (page T)) : list string :=
  match ps with
  | [] => []
  | p :: ps' => path :: paths_of (next_path p) ps'
  end.

Fixpoint event_paths {T} (topic : string) (cp : Z) (ps : list (event_page T))
  : list string :=
  match ps with
  | [] => []
  | p :: ps' =>
      changes_path topic cp :: event_paths topic (next_checkpoint p) ps'
  end.

(** The first path of a page walk over [resource]. *)
Definition first_path (resource : string)
           (options : option (list (string * string))) : string :=
  replace_first tail_api_v3 (resource ++ "?page=1" ++ extra_of options).

(** What a successful exchange leaves behind, for a safety margin [margin]. *)
Definition exchanged {B} (margin : Z) (w : World B) (r : reply token_body)
           (body : token_body) : World B :=
  mkWorld
    (set_tokenRefresh
       (seconds (now w + Z.of_N (latency r)) + expires_in body - margin)
       (client w))
    (now w + Z.of_N (latency r)) (tl (oauth w)) (api w)
    (trace w ++ [token_request (client w)]).

(** ** Sample worlds

    A client of the first class that holds the token ["tok"], good until
    second 2000, at instant 1000000 ms. *)
Definition brain : Client :=
  set_tokenRefresh 2000
    (set_token (Some "tok")
       (SaasClient.constructor "https://brain.portal.vectra.ai" "id" "secret"
                               None)).

Definition world_of {B} (c : Client) (answers : list (reply B)) : World B :=
  mkWorld c 1000000 [] answers [].

Definition in_time {B} (b : B) : reply B := mkReply 40 (Ok b).

(** Three pages with 2, 2 and 1 results, the last with a null [next]. *)
Definition three_pages : list (page Z) :=
  [ mkPage [11; 12]
           (Some "https://brain.portal.vectra.ai/api/v3/detections?page=2");
    mkPage [13; 14]
           (Some "https://brain.portal.vectra.ai/api/v3/detections?page=3") ].

Definition third_page : page Z := mkPage [15] None.

(** A fresh client, with no token yet, facing an OAuth2 server that grants
    one for an hour and an API server that answers with [answers]. *)
Definition fresh_world {B} (answers : list (reply B)) : World B :=
  mkWorld (SaasClient.constructor "https://brain.portal.vectra.ai" "id"
                                  "secret" None)
          1000000 [mkReply 40 (Ok (mkTokenBody "tok" 3600))] answers [].

Definition fresh_three_pages : World (page Z) :=
  fresh_world (map in_time (three_pages ++ [third_page])%list).

(** Event pages with 5, 3 and 0 events remaining after them. *)
Definition two_event_pages : list (event_page Z) :=
  [ mkEventPage [1; 2; 3; 4; 5] 5 105; mkEventPage [6; 7; 8] 3 108 ].

Definition last_event_page : event_page Z := mkEventPage [] 0 108.

Definition fresh_three_event_pages : World (event_page Z) :=
  fresh_world (map in_time (two_event_pages ++ [last_event_page])%list).

(** A fresh client of the first class facing an OAuth2 server that grants a
    token for 50 seconds. *)
Definition short_lived_grant : World unit :=
  mkWorld (SaasClient.constructor "https://brain.portal.vectra.ai" "id"
                                  "secret" None)
          1000000 [mkReply 0 (Ok (mkTokenBody "tok" 50))] [] [].

(** The sample client at the very second its token expires, facing an OAuth2
    server that is ready to grant a new token. *)
Definition at_expiry : World unit :=
  mkWorld brain 2000000 [mkReply 0 (Ok (mkTokenBody "new" 3600))] [] [].

(** A fresh client facing an OAuth2 server that grants a token for an
    hour. *)
Definition cold_start : World unit := fresh_world [].

(** The sample client facing an API server that answers 404, and one that
    never answers. *)
Definition not_found : World unit :=
  world_of brain [mkReply 40 (Rejected 404 "Not Found")].

Definition unreachable : World unit :=
  world_of brain [mkReply 40 NoResponse].

(** The sample client facing an API server that answers once. *)
Definition one_answer : World unit := world_of brain [in_time tt].

(** The sample client facing an API server that answers with one last page. *)
Definition one_page : World (page Z) := world_of brain [in_time third_page].

(** The sample client facing a tagging endpoint that holds the tag ["old"]. *)
Definition tagged_old : World tags_body :=
  world_of brain [in_time (mkTagsBody ["old"]); in_time (mkTagsBody [])].

(** What a run threw, if it threw. *)
Definition thrown {B A} (run : option (result A * World B)) : option error :=
  match run with
  | Some (Throw e, _) => Some e
  | _ => None
  end.

(** The requests a run has logged. *)
Definition sent {B A} (run : option (result A * World B)) : list request :=
  match run with
  | Some (_, w) => trace w
  | None => []
  end.

(** ** Vocabulary of the further properties *)

(** [occurs p s]: the literal [p] occurs somewhere in [s]. *)
Fixpoint occurs (p s : string) : bool :=
  match strip_literal p s with
  | Some _ => true
  | None =>
      match s with
      | EmptyString => false
      | String _ r => occurs p r
      end
  end.

(** [one_line s]: no line terminator in [s]. *)
Fixpoint one_line (s : string) : bool :=
  match s with
  | EmptyString => true
  | String c r => negb (line_terminator c) && one_line r
  end.

(** [r] is empty or begins with a slash. *)
Definition rooted (r : string) : bool :=
  match r with
  | EmptyString => true
  | String c _ => (c =? "/")%char
  end.

(** A first page whose [next] is a full URL of the server, and the sample
    client facing a server that holds it and one last page. *)
Definition first_page : page Z :=
  mkPage [11; 12]
         (Some "https://brain.portal.vectra.ai/api/v3/detections?page=2").


(** The sample client facing a tagging endpoint that holds four tags, two of
    them equal. *)
Definition tagged_twice : World tags_body :=
  world_of brain
           [in_time (mkTagsBody ["a"; "b"; "a"; "c"]); in_time (mkTagsBody [])].

(** The sample client facing an event endpoint whose head is at 108. *)
Definition probe_world : World (event_page Z) :=
  world_of brain [in_time (mkEventPage [] 0 108);
                  in_time (mkEventPage [] 0 108)].

(** What the transport throws for an answer that is not a success, [url]
    being the URL of the request. *)
Definition failure (url : string) {B} (a : outcome B) : option error :=
  match a with
  | Ok _ => None
  | Rejected st text => Some (AxiosError (Some (mkResponse st text url)))
  | NoResponse => Some (AxiosError None)
  end.

(** What the normalising [catch] block makes of an error. *)
Definition normalised (err : error) : error :=
  match err with
  | AxiosError (Some r) => Normalized (status r) (statusText r) (config_url r)
  | _ => err
  end.

(** A client without a token facing an OAuth2 server that answers 401. *)
Definition refused : World unit :=
  mkWorld (SaasClient.constructor "https://brain.portal.vectra.ai" "id"
                                  "wrong" None)
          1000000 [mkReply 40 (Rejected 401 "Unauthorized")] [in_time tt] [].

(** The sample client after its token expired, facing an OAuth2 server that
    grants a new one and an API server that answers once. *)
Definition expired : World unit :=
  mkWorld brain 2001000 [mkReply 40 (Ok (mkTokenBody "new" 3600))]
          [in_time tt] [].

(** [c'] has the settings of [c]: everything but the token and its expiry. *)
Definition same_settings (c c' : Client) : Prop :=
  siteURL c' = siteURL c /\ clientID c' = clientID c
  /\ secret c' = secret c /\ sleepTime c' = sleepTime c
  /\ version c' = version c.

(** [m] never changes the settings of the client, however it ends. *)
Definition keeps_settings {B A} (m : M B A) : Prop :=
  forall w,
    match m w with
    | Some (_, w') => same_settings (client w) (client w')
    | None => True
    end.

(** The path fetch is asked for once it has served [ps] from [path], and the
    checkpoint it is asked from once it has served [ps] from [cp]. *)
Fixpoint path_after {T} (path : string) (ps : list (page T)) : string :=
  match ps with
  | [] => path
  | p :: ps' => path_after (next_path p) ps'
  end.

Fixpoint checkpoint_after {T} (cp : Z) (ps : list (event_page T)) : Z :=
  match ps with
  | [] => cp
  | p :: ps' => checkpoint_after (next_checkpoint p) ps'
  end.

(** The strings of [l] one after the other. *)
Fixpoint flatten (l : list string) : string :=
  match l with
  | [] => ""
  | s :: l' => s ++ flatten l'
  end.

(** The sample client facing a server that serves one page and then answers
    500. *)
Definition failing_second_page : World (page Z) :=
  world_of brain [in_time first_page;
                  mkReply 40 (Rejected 500 "Internal Server Error")].

(** ** Proof steps

    Running the validity check by cases on the state of the token and on
    the next answer of the OAuth2 server. *)
Ltac run_token_check w :=
  unfold try_catch, bind, get_field, Date_now, axios_oauth, settle,
    modify_client, ret, throw; simpl;
  destruct (negb (truthy (token (client w)))
            || (tokenRefresh (client w) <? seconds (now w)));
  [ destruct (oauth w) as [ | [lat [body | st text | ]] rest] | ]; simpl.

(** ** The monad and the token manager *)

Lemma try_rethrow {B A} (m : M B A) (w : World B) :
  try_catch m (fun err => throw err) w = m w.
Proof.
  unfold try_catch, throw.
  destruct (m w) as [[[a | e] w'] | ]; reflexivity.
Qed.

Lemma token_valid_earlier (c : Client) (t t' : Z) :
  t <= t' -> token_valid_at c t' -> token_valid_at c t.
Proof.
  intros Hle [Hheld Hfresh]. split; [exact Hheld | ].
  unfold seconds in *.
  assert (t / 1000 <= t' / 1000) by (apply Z.div_le_mono; lia).
  lia.
Qed.

Lemma elapsed_nonneg {B} (pause : Z) (rs : list (reply B)) :
  0 <= pause -> 0 <= elapsed pause rs.
Proof.
  intros Hp. induction rs as [ | r rs IH]; simpl; lia.
Qed.

Lemma checkToken_valid {B} (w : World B) :
  token_valid_at (client w) (now w) ->
  SaasClient.checkToken w
  = Some (Return true, advance (sleepTime (client w)) w).
Proof.
  intros [Hheld Hfresh].
  unfold SaasClient.checkToken. rewrite try_rethrow.
  unfold bind, get_field, Date_now; simpl.
  rewrite Hheld; simpl.
  destruct (Z.ltb_spec (tokenRefresh (client w)) (seconds (now w)));
    [lia | reflexivity].
Qed.

Lemma checkToken2_valid {B} (w : World B) :
  token_valid_at (client w) (now w) ->
  SaasClient2.checkToken w
  = Some (Return true, advance (sleepTime (client w)) w).
Proof.
  intros [Hheld Hfresh].
  unfold SaasClient2.checkToken, bind, get_field, Date_now; simpl.
  rewrite Hheld; simpl.
  destruct (Z.ltb_spec (tokenRefresh (client w)) (seconds (now w)));
    [lia | reflexivity].
Qed.

Lemma getToken_ok {B} (w : World B) r rest body :
  oauth w = r :: rest -> answer r = Ok body ->
  SaasClient.getToken w
  = Some (Return (access_token body), exchanged 100 w r body).
Proof.
  intros Hq Ha.
  unfold SaasClient.getToken. rewrite try_rethrow.
  unfold bind, get_field, axios_oauth, settle, Date_now, modify_client, ret.
  simpl. rewrite Hq. simpl. rewrite Ha. reflexivity.
Qed.

Lemma getToken2_ok {B} (w : World B) r rest body :
  oauth w = r :: rest -> answer r = Ok body ->
  SaasClient2.getToken w
  = Some (Return (access_token body),
          mkWorld
            (set_tokenRefresh
               (seconds (now w + Z.of_N (latency r)) + expires_in body)
               (client w))
            (now w + Z.of_N (latency r)) (tl (oauth w)) (api w)
            (trace w ++ [token_request (client w)])).
Proof.
  intros Hq Ha.
  destruct w as [c t oa ap tr]; simpl in *; subst oa.
  unfold SaasClient2.getToken.
  unfold bind, get_field, axios_oauth, settle, Date_now, modify_client, ret.
  simpl. rewrite Ha. reflexivity.
Qed.

(** Whatever the server does, [#getToken] issues exactly the exchange
    request. *)
Lemma getToken_trace {B} (w : World B) :
  exists r w',
    SaasClient.getToken w = Some (r, w')
    /\ trace w' = (trace w ++ [token_request (client w)])%list.
Proof.
  unfold SaasClient.getToken. rewrite try_rethrow.
  unfold bind, get_field, axios_oauth, settle, Date_now, modify_client, ret.
  simpl.
  destruct (oauth w) as [ | [lat [body | st text | ]] rest]; simpl;
    eexists; eexists; split; reflexivity.
Qed.

Lemma checkToken_stale {B} (w : World B) :
  truthy (token (client w)) = false
  \/ tokenRefresh (client w) < seconds (now w) ->
  exists r w',
    SaasClient.checkToken w = Some (r, w')
    /\ trace w' = (trace w ++ [token_request (client w)])%list.
Proof.
  intros Hstale.
  unfold SaasClient.checkToken. rewrite try_rethrow.
  unfold bind at 1 2 3 4. unfold get_field at 1 2. unfold Date_now at 1.
  assert (Hc : negb (truthy (token (client w)))
               || (tokenRefresh (client w) <? seconds (now w)) = true).
  { destruct Hstale as [H | H].
    - rewrite H. reflexivity.
    - apply orb_true_iff. right. apply Z.ltb_lt. exact H. }
  rewrite Hc.
  destruct (getToken_trace w) as (r & w' & Hrun & Htr).
  unfold bind at 1. rewrite Hrun.
  destruct r as [tok | e].
  - unfold modify_client, bind, get_field, SaasClient.sleep, ret; simpl.
    eexists; eexists; split; [reflexivity | exact Htr].
  - eexists; eexists; split; [reflexivity | exact Htr].
Qed.

(** Whatever the state of the token and of the OAuth2 server, the validity
    check sends nothing but the exchange request and does not touch the
    base URL, the version or the API server. *)
Lemma checkToken_outcome {B} (w : World B) :
  exists r w' posted,
    SaasClient.checkToken w = Some (r, w')
    /\ trace w' = (trace w ++ posted)%list
    /\ Forall (fun q => r_method q = POST) posted
    /\ siteURL (client w') = siteURL (client w)
    /\ version (client w') = version (client w).
Proof.
  unfold SaasClient.checkToken, SaasClient.getToken, SaasClient.sleep.
  run_token_check w.
  1-4: eexists; eexists; exists [token_request (client w)];
    repeat split; repeat constructor.
  eexists; eexists; exists []; rewrite app_nil_r; repeat split; constructor.
Qed.

Lemma checkToken2_outcome {B} (w : World B) :
  exists r w' posted,
    SaasClient2.checkToken w = Some (r, w')
    /\ trace w' = (trace w ++ posted)%list
    /\ Forall (fun q => r_method q = POST) posted
    /\ siteURL (client w') = siteURL (client w).
Proof.
  unfold SaasClient2.checkToken, SaasClient2.getToken, SaasClient2.sleep.
  run_token_check w.
  1-4: eexists; eexists; exists [token_request (client w)];
    repeat split; repeat constructor.
  eexists; eexists; exists []; rewrite app_nil_r; repeat split; constructor.
Qed.

Lemma posts_are_not_deletes (posted : list request) (P : request -> Prop) :
  Forall (fun q => r_method q = POST) posted ->
  Forall (fun q => r_method q = DELETE -> P q) posted.
Proof.
  intros H. eapply Forall_impl; [ | exact H].
  intros q Hq Hd. rewrite Hq in Hd. discriminate Hd.
Qed.

(** The validity check throws nothing but errors of the transport. *)
Lemma checkToken_throws_raw {B} (w w' : World B) (e : error) :
  SaasClient.checkToken w = Some (Throw e, w') ->
  exists resp, e = AxiosError resp.
Proof.
  unfold SaasClient.checkToken, SaasClient.getToken, SaasClient.sleep.
  run_token_check w; intros H; try discriminate H;
    injection H as <- _; eexists; reflexivity.
Qed.

(** ** The verbs under a valid token *)

Lemma call_run {B} (method : verb) (url : string) (body : payload)
      (w : World B) :
  SaasClient.call method url body w
  = settle (api_request (client w) method url body) (hd_error (api w))
           (pop_api (record (api_request (client w) method url body) w)).
Proof. reflexivity. Qed.

Lemma verb_run {B} (method : verb) (url : string) (body : payload)
      (w : World B) :
  token_valid_at (client w) (now w) ->
  (SaasClient.checkToken ;; SaasClient.call method url body) w
  = settle (api_request (client w) method url body) (hd_error (api w))
           (pop_api (record (api_request (client w) method url body)
                            (advance (sleepTime (client w)) w))).
Proof.
  intros Hv. unfold bind. rewrite (checkToken_valid w Hv).
  rewrite call_run. reflexivity.
Qed.

Lemma get_served {B} (url : string) (w : World B) r rest b :
  token_valid_at (client w) (now w) ->
  api w = r :: rest -> answer r = Ok b ->
  SaasClient.get url w
  = Some (Return b,
          served w [r] rest [api_request (client w) GET url NoData]).
Proof.
  intros Hv Hq Ha.
  unfold SaasClient.get, try_catch. rewrite (verb_run GET url NoData w Hv).
  unfold settle; simpl. rewrite Hq; simpl. rewrite Ha.
  unfold served, advance; simpl.
  do 3 f_equal; [lia | rewrite Hq; reflexivity].
Qed.

Lemma get_sends {B} (url : string) (w : World B) :
  token_valid_at (client w) (now w) ->
  exists r w',
    SaasClient.get url w = Some (r, w')
    /\ trace w' = (trace w ++ [api_request (client w) GET url NoData])%list.
Proof.
  intros Hv. unfold SaasClient.get, try_catch.
  rewrite (verb_run _ _ _ w Hv). unfold settle.
  destruct (hd_error (api w)) as [[lat [b | st text | ]] | ]; simpl;
    eexists; eexists; split; reflexivity.
Qed.

(** ** What one fetch logs *)

Lemma fetched_app (t t' : list request) :
  fetched (t ++ t') = (fetched t ++ fetched t')%list.
Proof.
  unfold fetched. rewrite filter_app, map_app. reflexivity.
Qed.

Lemma fetched_posts (posted : list request) :
  Forall (fun q => r_method q = POST) posted -> fetched posted = [].
Proof.
  induction 1 as [ | q posted Hq _ IH]; [reflexivity | ].
  unfold fetched in *. simpl. unfold is_fetch at 1. rewrite Hq. exact IH.
Qed.

(** A call of [#get] that returns has logged exactly one GET, for the path it
    was given, after whatever the token check posted. *)
Lemma get_returns {B} (path : string) (w w1 : World B) (b : B) :
  SaasClient.get path w = Some (Return b, w1) ->
  fetched (trace w1) = (fetched (trace w) ++ [url_of (client w) path])%list
  /\ siteURL (client w1) = siteURL (client w)
  /\ version (client w1) = version (client w).
Proof.
  unfold SaasClient.get, try_catch.
  destruct (checkToken_outcome w)
    as (r & w0 & posted & Hrun & Htr & Hpost & Hsite & Hver).
  unfold bind. rewrite Hrun. destruct r as [ok | e].
  - rewrite call_run. unfold settle.
    destruct (hd_error (api w0)) as [[lat [b' | st text | ]] | ]; simpl;
      intros H; try discriminate H.
    injection H as _ <-. simpl.
    rewrite Htr, !fetched_app, (fetched_posts posted Hpost), app_nil_r.
    unfold fetched at 2. simpl. unfold url_of.
    rewrite Hsite, Hver. repeat split; assumption.
  - destruct e as [[resp | ] | st text url | msg]; simpl; intros H;
      discriminate H.
Qed.

(** ** The page walker *)

Lemma first_url_truthy (resource extra : string) :
  truthy (Some (String "/" resource ++ extra)) = true.
Proof. reflexivity. Qed.

Lemma paths_of_snoc {T} (ps : list (page T)) (last : page T) :
  forall path,
    paths_of path (ps ++ [last]) = path :: map next_path ps.
Proof.
  induction ps as [ | p ps IH]; intros path; simpl.
  - reflexivity.
  - rewrite IH. reflexivity.
Qed.

Lemma fetch_serves_fetched {T} (ps : list (page T)) :
  forall (w w' : World (page T)) (path : string),
    fetch_serves w path ps w' ->
    fetched (trace w')
    = (fetched (trace w) ++ map (url_of (client w)) (paths_of path ps))%list.
Proof.
  induction ps as [ | p ps IH]; intros w w' path Hs; simpl in Hs.
  - subst w'. simpl. rewrite app_nil_r. reflexivity.
  - destruct Hs as (w1 & Hget & Hs).
    destruct (get_returns _ _ _ _ Hget) as (Hlog & Hsite & Hver).
    rewrite (IH _ _ _ Hs), Hlog, <- app_assoc. simpl.
    unfold url_of. rewrite Hsite, Hver. reflexivity.
Qed.

Lemma next_loop_serves {T} (ps : list (page T)) :
  forall (w w' : World (page T)) (url : string) (acc : list T)
         (last : page T) (fuel : nat),
    fetch_serves w (replace_first tail_api_v3 url) (ps ++ [last]) w' ->
    Forall (fun p => truthy (next p) = true) ps ->
    truthy (next last) = false ->
    truthy (Some url) = true ->
    (List.length (ps ++ [last]) < fuel)%nat ->
    SaasClient.next_loop fuel (Some url) acc w
    = Some (Return (acc ++ List.concat (map results (ps ++ [last])))%list,
            w').
Proof.
  induction ps as [ | p ps IH];
    intros w w' url acc last fuel Hs Hps Hlast Hurl Hfuel.
  - destruct Hs as (w1 & Hget & ->).
    destruct fuel as [ | [ | fuel]]; simpl in Hfuel; try lia.
    cbn [SaasClient.next_loop]. rewrite Hurl.
    unfold bind at 1. rewrite Hget, Hlast.
    cbn [map List.concat app]. rewrite app_nil_r. reflexivity.
  - destruct Hs as (w1 & Hget & Hs).
    inversion Hps as [ | p' ps' Hp Hps']; subst p' ps'.
    destruct fuel as [ | fuel]; simpl in Hfuel; try lia.
    cbn [SaasClient.next_loop]. rewrite Hurl.
    unfold bind at 1. rewrite Hget.
    unfold next_path in Hs.
    destruct (next p) as [url' | ] eqn:Hnext; [ | discriminate Hp].
    rewrite (IH w1 w' url' _ last fuel Hs Hps' Hlast Hp ltac:(lia)).
    cbn [map List.concat app]. rewrite <- app_assoc. reflexivity.
Qed.

(** ** The checkpoint walker *)

Lemma event_paths_snoc {T} (topic : string) (ps : list (event_page T))
      (last : event_page T) :
  forall cp,
    event_paths topic cp (ps ++ [last])
    = map (changes_path topic) (cp :: map next_checkpoint ps).
Proof.
  induction ps as [ | p ps IH]; intros cp; simpl.
  - reflexivity.
  - rewrite IH. reflexivity.
Qed.

Lemma fetch_serves_events_fetched {T} (topic : string)
      (ps : list (event_page T)) :
  forall (w w' : World (event_page T)) (cp : Z),
    fetch_serves_events w topic cp ps w' ->
    fetched (trace w')
    = (fetched (trace w)
         ++ map (url_of (client w)) (event_paths topic cp ps))%list.
Proof.
  induction ps as [ | p ps IH]; intros w w' cp Hs; simpl in Hs.
  - subst w'. simpl. rewrite app_nil_r. reflexivity.
  - destruct Hs as (w1 & Hget & Hs).
    destruct (get_returns _ _ _ _ Hget) as (Hlog & Hsite & Hver).
    rewrite (IH _ _ _ Hs), Hlog, <- app_assoc. simpl.
    unfold url_of. rewrite Hsite, Hver. reflexivity.
Qed.

Lemma changes_loop_serves {T} (topic : string) (ps : list (event_page T)) :
  forall (w w' : World (event_page T)) (remaining cp : Z) (acc : list T)
         (last : event_page T) (fuel : nat),
    fetch_serves_events w topic cp (ps ++ [last]) w' ->
    0 < remaining ->
    Forall (fun p => 0 < remaining_count p) ps ->
    remaining_count last <= 0 ->
    (List.length (ps ++ [last]) < fuel)%nat ->
    SaasClient.changes_loop fuel topic remaining cp acc w
    = Some (Return (acc ++ List.concat (map events (ps ++ [last])))%list,
            w').
Proof.
  induction ps as [ | p ps IH];
    intros w w' remaining cp acc last fuel Hs Hrem Hps Hlast Hfuel.
  - destruct Hs as (w1 & Hget & ->).
    destruct fuel as [ | [ | fuel]]; simpl in Hfuel; try lia.
    cbn [SaasClient.changes_loop].
    apply Z.ltb_lt in Hrem; rewrite Hrem.
    unfold bind at 1. fold (changes_path topic cp). rewrite Hget.
    assert (Hstop : (0 <? remaining_count last) = false)
      by (apply Z.ltb_ge; exact Hlast).
    rewrite Hstop. cbn [map List.concat app]. rewrite app_nil_r.
    reflexivity.
  - destruct Hs as (w1 & Hget & Hs).
    inversion Hps as [ | p' ps' Hp Hps']; subst p' ps'.
    destruct fuel as [ | fuel]; simpl in Hfuel; try lia.
    cbn [SaasClient.changes_loop].
    apply Z.ltb_lt in Hrem; rewrite Hrem.
    unfold bind at 1. fold (changes_path topic cp). rewrite Hget.
    rewrite (IH w1 w' _ _ _ last fuel Hs Hp Hps' Hlast ltac:(lia)).
    cbn [map List.concat app]. rewrite <- app_assoc. reflexivity.
Qed.

(** ** Worlds in which fetch serves

    With a token that stays valid and an API server that answers with the
    pages, whatever the path, fetch serves these pages. *)

Lemma served_nothing {B} (w : World B) (rest : list (reply B)) :
  api w = rest -> served w [] rest [] = w.
Proof.
  intros <-. destruct w as [c t oa ap tr]. unfold served; simpl.
  f_equal; [lia | apply app_nil_r].
Qed.

Lemma served_served {B} (w : World B) r rs rest req reqs :
  served (served w [r] (rs ++ rest)%list [req]) rs rest reqs
  = served w (r :: rs) rest (req :: reqs).
Proof.
  unfold served; simpl. f_equal; [lia | ].
  rewrite <- app_assoc. reflexivity.
Qed.

Lemma valid_token_serves {T} (ps : list (page T)) :
  forall (w : World (page T)) (rs rest : list (reply (page T)))
         (path : string),
    api w = (rs ++ rest)%list ->
    map answer rs = map Ok ps ->
    0 <= sleepTime (client w) ->
    token_valid_at (client w) (now w + elapsed (sleepTime (client w)) rs) ->
    fetch_serves w path ps
                 (served w rs rest
                         (map (fun path => api_request (client w) GET path NoData)
                              (paths_of path ps))).
Proof.
  induction ps as [ | p ps IH]; intros w rs rest path Hq Hrs Hpause Hv.
  - destruct rs as [ | r rs]; [ | discriminate Hrs].
    simpl. apply served_nothing. exact Hq.
  - destruct rs as [ | r rs]; simpl in Hrs; [discriminate Hrs | ].
    injection Hrs as Ha Hrs.
    assert (Hrest : 0 <= elapsed (sleepTime (client w)) rs)
      by (apply elapsed_nonneg; exact Hpause).
    cbn [fetch_serves].
    exists (served w [r] (rs ++ rest)%list
                   [api_request (client w) GET path NoData]).
    split.
    + apply (get_served path w r (rs ++ rest)%list p); [ | exact Hq | exact Ha].
      eapply token_valid_earlier; [ | exact Hv]. simpl. lia.
    + cbn [paths_of map].
      rewrite <- (served_served w r rs rest
                    (api_request (client w) GET path NoData)
                    (map (fun path => api_request (client w) GET path NoData)
                         (paths_of (next_path p) ps))).
      apply (IH (served w [r] (rs ++ rest)%list
                        [api_request (client w) GET path NoData])
                rs rest (next_path p)); try assumption.
      * reflexivity.
      * simpl. eapply token_valid_earlier; [ | exact Hv]. simpl. lia.
Qed.

Lemma valid_token_serves_events {T} (topic : string)
      (ps : list (event_page T)) :
  forall (w : World (event_page T)) (rs rest : list (reply (event_page T)))
         (cp : Z),
    api w = (rs ++ rest)%list ->
    map answer rs = map Ok ps ->
    0 <= sleepTime (client w) ->
    token_valid_at (client w) (now w + elapsed (sleepTime (client w)) rs) ->
    fetch_serves_events w topic cp ps
      (served w rs rest
              (map (fun path => api_request (client w) GET path NoData)
                   (event_paths topic cp ps))).
Proof.
  induction ps as [ | p ps IH]; intros w rs rest cp Hq Hrs Hpause Hv.
  - destruct rs as [ | r rs]; [ | discriminate Hrs].
    simpl. apply served_nothing. exact Hq.
  - destruct rs as [ | r rs]; simpl in Hrs; [discriminate Hrs | ].
    injection Hrs as Ha Hrs.
    assert (Hrest : 0 <= elapsed (sleepTime (client w)) rs)
      by (apply elapsed_nonneg; exact Hpause).
    cbn [fetch_serves_events].
    exists (served w [r] (rs ++ rest)%list
                   [api_request (client w) GET (changes_path topic cp) NoData]).
    split.
    + apply (get_served _ w r (rs ++ rest)%list p); [ | exact Hq | exact Ha].
      eapply token_valid_earlier; [ | exact Hv]. simpl. lia.
    + cbn [event_paths map].
      rewrite <- (served_served w r rs rest
                    (api_request (client w) GET (changes_path topic cp) NoData)
                    (map (fun path => api_request (client w) GET path NoData)
                         (event_paths topic (next_checkpoint p) ps))).
      apply (IH (served w [r] (rs ++ rest)%list
                        [api_request (client w) GET (changes_path topic cp)
                                     NoData])
                rs rest (next_checkpoint p)); try assumption.
      * reflexivity.
      * simpl. eapply token_valid_earlier; [ | exact Hv]. simpl. lia.
Qed.

(** ** Claims about the walkers *)

(** The loop tests [data.next] for truth. A list answer carries a [next] that
    is null or the URL of the next page, never the empty string, and for
    such a [next] the test fails exactly when [next] is null. *)
Lemma next_falsy_iff_null (n : option string) :
  n <> Some "" -> (truthy n = false <-> n = None).
Proof.
  intros Hcontract. destruct n as [url | ]; simpl.
  - destruct (String.eqb_spec url "") as [-> | Hne]; simpl.
    + destruct (Hcontract eq_refl).
    + split; discriminate.
  - split; reflexivity.
Qed.

(** C1. Let fetch serve the pages [ps] followed by [last], where every page
    of [ps] names a next page and [last] is the first page whose [next] is
    null (in the terms of the loop: [next] is truthy on [ps] and falsy on
    [last], which for the answers of a list endpoint is the same, see
    [next_falsy_iff_null]). Then [getAllDetections] and [getAllAccounts]
    return the concatenation of the [results] of all these pages in arrival
    order and end in the world the last fetch left: they have made exactly
    one fetch call per page, the first for [?page=1] with the options and
    each later one for the stripped [next] of the page before, and none
    after [last]. *)
Theorem page_walk_concatenates {T} (w w' : World (page T))
        (options : option (list (string * string)))
        (ps : list (page T)) (last : page T) (fuel : nat) :
  Forall (fun p => truthy (next p) = true) ps ->
  truthy (next last) = false ->
  (List.length (ps ++ [last]) < fuel)%nat ->
  (fetch_serves w (first_path "/detections" options) (ps ++ [last]) w' ->
   SaasClient.getAllDetections fuel options w
   = Some (Return (List.concat (map results (ps ++ [last]))), w')
   /\ fetched (trace w')
      = (fetched (trace w)
           ++ map (url_of (client w))
                  (first_path "/detections" options :: map next_path ps))%list
   /\ List.length (fetched (trace w'))
      = (List.length (fetched (trace w)) + List.length (ps ++ [last]))%nat)
  /\ (fetch_serves w (first_path "/accounts" options) (ps ++ [last]) w' ->
      SaasClient.getAllAccounts fuel options w
      = Some (Return (List.concat (map results (ps ++ [last]))), w')
      /\ fetched (trace w')
         = (fetched (trace w)
              ++ map (url_of (client w))
                     (first_path "/accounts" options :: map next_path ps))%list
      /\ List.length (fetched (trace w'))
         = (List.length (fetched (trace w)) + List.length (ps ++ [last]))%nat).
Proof.
  intros Hps Hlast Hfuel.
  assert (Hlog : forall path,
             fetch_serves w path (ps ++ [last]) w' ->
             fetched (trace w')
             = (fetched (trace w)
                  ++ map (url_of (client w)) (path :: map next_path ps))%list
             /\ List.length (fetched (trace w'))
                = (List.length (fetched (trace w))
                   + List.length (ps ++ [last]))%nat).
  { intros path Hs.
    pose proof (fetch_serves_fetched _ _ _ _ Hs) as Hf.
    rewrite paths_of_snoc in Hf. split; [exact Hf | ].
    rewrite Hf, !length_app, length_map. simpl. rewrite length_map. lia. }
  split; intros Hs; (split; [ | exact (Hlog _ Hs)]).
  - unfold SaasClient.getAllDetections. rewrite try_rethrow.
    fold (extra_of options).
    exact (next_loop_serves ps w w' _ [] last fuel Hs Hps Hlast
                            (first_url_truthy _ _) Hfuel).
  - unfold SaasClient.getAllAccounts. rewrite try_rethrow.
    fold (extra_of options).
    exact (next_loop_serves ps w w' _ [] last fuel Hs Hps Hlast
                            (first_url_truthy _ _) Hfuel).
Qed.

(** P3: a fresh client, an OAuth2 server that grants a token and three pages
    of 2, 2 and 1 results: 5 results through 3 fetch calls. *)
Lemma page_walk_three_pages :
  exists w',
    SaasClient.getAllDetections 4 (Some []) fresh_three_pages
    = Some (Return [11; 12; 13; 14; 15], w')
    /\ fetched (trace w')
       = [ "https://brain.portal.vectra.ai/api/v3/detections?page=1";
           "https://brain.portal.vectra.ai/api/v3/detections?page=2";
           "https://brain.portal.vectra.ai/api/v3/detections?page=3" ].
Proof.
  assert (Hs : exists w',
             fetch_serves fresh_three_pages
                          (first_path "/detections" (Some []))
                          (three_pages ++ [third_page]) w').
  { eexists. simpl.
    eexists. split; [vm_compute; reflexivity | ].
    eexists. split; [vm_compute; reflexivity | ].
    eexists. split; [vm_compute; reflexivity | ].
    reflexivity. }
  destruct Hs as (w' & Hs).
  destruct (proj1 (page_walk_concatenates
                     fresh_three_pages w' (Some []) three_pages third_page 4
                     ltac:(repeat constructor) eq_refl
                     ltac:(simpl; lia)) Hs)
    as (Hrun & Hlog & _).
  exists w'. split; [exact Hrun | ]. rewrite Hlog. reflexivity.
Defined.

(** Under a token that stays valid, with an API server that answers with the
    pages, the walk ends in the world these answers leave. *)
Lemma page_walk_under_valid_token {T} (w : World (page T))
      (options : option (list (string * string)))
      (ps : list (page T)) (last : page T)
      (rs rest : list (reply (page T))) (fuel : nat) :
  api w = (rs ++ rest)%list ->
  map answer rs = map Ok (ps ++ [last])%list ->
  Forall (fun p => truthy (next p) = true) ps ->
  truthy (next last) = false ->
  0 <= sleepTime (client w) ->
  token_valid_at (client w) (now w + elapsed (sleepTime (client w)) rs) ->
  (List.length rs < fuel)%nat ->
  SaasClient.getAllDetections fuel options w
  = Some (Return (List.concat (map results (ps ++ [last]))),
          served w rs rest
                 (map (fun path => api_request (client w) GET path NoData)
                      (first_path "/detections" options :: map next_path ps))).
Proof.
  intros Hq Hrs Hps Hlast Hpause Hv Hfuel.
  assert (Hlen : List.length rs = List.length (ps ++ [last])%list).
  { apply (f_equal (@List.length _)) in Hrs.
    rewrite !length_map in Hrs. exact Hrs. }
  rewrite <- paths_of_snoc with (last := last).
  unfold SaasClient.getAllDetections. rewrite try_rethrow.
  fold (extra_of options).
  apply (next_loop_serves ps w _ _ [] last fuel);
    [ | exact Hps | exact Hlast | apply first_url_truthy | lia].
  apply valid_token_serves; assumption.
Qed.

(** C2. Let fetch serve, from the caller's checkpoint (0 when omitted) and
    then from each page's [next_checkpoint], the event pages [ps] followed by
    [last], where every page of [ps] reports a positive [remaining_count]
    and [last] is the first that reports none. Then [getAccountChanges] and
    [getDetectionChanges] return the concatenation of the [events] of all
    these pages in arrival order and end in the world the last fetch left:
    they have made exactly one fetch call per page, at least one, the first
    with [from] set to the starting checkpoint and each later one with
    [from] set to the [next_checkpoint] of the page before. *)
Theorem checkpoint_walk_concatenates {T} (w w' : World (event_page T))
        (checkpoint : option Z)
        (ps : list (event_page T)) (last : event_page T) (fuel : nat) :
  Forall (fun p => 0 < remaining_count p) ps ->
  remaining_count last <= 0 ->
  (List.length (ps ++ [last]) < fuel)%nat ->
  let start := match checkpoint with Some c => c | None => 0 end in
  (fetch_serves_events w "/events/account_scoring" start (ps ++ [last]) w' ->
   SaasClient.getAccountChanges fuel checkpoint w
   = Some (Return (List.concat (map events (ps ++ [last]))), w')
   /\ fetched (trace w')
      = (fetched (trace w)
           ++ map (fun cp =>
                     url_of (client w)
                            ("/events/account_scoring?limit=1000&from="
                               ++ show cp))
                  (start :: map next_checkpoint ps))%list
   /\ List.length (fetched (trace w'))
      = (List.length (fetched (trace w)) + S (List.length ps))%nat)
  /\ (fetch_serves_events w "/events/account_detection" start
                          (ps ++ [last]) w' ->
      SaasClient.getDetectionChanges fuel checkpoint w
      = Some (Return (List.concat (map events (ps ++ [last]))), w')
      /\ fetched (trace w')
         = (fetched (trace w)
              ++ map (fun cp =>
                        url_of (client w)
                               ("/events/account_detection?limit=1000&from="
                                  ++ show cp))
                     (start :: map next_checkpoint ps))%list
      /\ List.length (fetched (trace w'))
         = (List.length (fetched (trace w)) + S (List.length ps))%nat).
Proof.
  intros Hps Hlast Hfuel start.
  assert (Hlog : forall topic,
             fetch_serves_events w topic start (ps ++ [last]) w' ->
             fetched (trace w')
             = (fetched (trace w)
                  ++ map (fun cp => url_of (client w) (changes_path topic cp))
                         (start :: map next_checkpoint ps))%list
             /\ List.length (fetched (trace w'))
                = (List.length (fetched (trace w)) + S (List.length ps))%nat).
  { intros topic Hs.
    pose proof (fetch_serves_events_fetched _ _ _ _ _ Hs) as Hf.
    rewrite event_paths_snoc, map_map in Hf. split; [exact Hf | ].
    rewrite Hf, length_app, length_map. simpl. rewrite length_map.
    reflexivity. }
  split; intros Hs; (split; [ | exact (Hlog _ Hs)]).
  - unfold SaasClient.getAccountChanges. rewrite try_rethrow.
    exact (changes_loop_serves _ ps w w' 1 start [] last fuel Hs
                               ltac:(lia) Hps Hlast Hfuel).
  - unfold SaasClient.getDetectionChanges. rewrite try_rethrow.
    exact (changes_loop_serves _ ps w w' 1 start [] last fuel Hs
                               ltac:(lia) Hps Hlast Hfuel).
Qed.

(** P4: a fresh client, an OAuth2 server that grants a token and event pages
    reporting 5, 3 and 0 remaining events, with 5, 3 and 0 events: 8 events
    through 3 fetch calls chained by [next_checkpoint]. *)
Lemma checkpoint_walk_three_pages :
  exists w',
    SaasClient.getAccountChanges 4 (Some 100) fresh_three_event_pages
    = Some (Return [1; 2; 3; 4; 5; 6; 7; 8], w')
    /\ fetched (trace w')
       = [ "https://brain.portal.vectra.ai/api/v3/events/account_scoring?limit=1000&from=100";
           "https://brain.portal.vectra.ai/api/v3/events/account_scoring?limit=1000&from=105";
           "https://brain.portal.vectra.ai/api/v3/events/account_scoring?limit=1000&from=108" ].
Proof.
  assert (Hs : exists w',
             fetch_serves_events fresh_three_event_pages
                                 "/events/account_scoring" 100
                                 (two_event_pages ++ [last_event_page]) w').
  { eexists. simpl.
    eexists. split; [vm_compute; reflexivity | ].
    eexists. split; [vm_compute; reflexivity | ].
    eexists. split; [vm_compute; reflexivity | ].
    reflexivity. }
  destruct Hs as (w' & Hs).
  destruct (proj1 (checkpoint_walk_concatenates
                     fresh_three_event_pages w' (Some 100) two_event_pages
                     last_event_page 4
                     ltac:(repeat constructor)
                     ltac:(vm_compute; discriminate)
                     ltac:(simpl; lia)) Hs)
    as (Hrun & Hlog & _).
  exists w'. split; [exact Hrun | ]. rewrite Hlog. reflexivity.
Defined.

(** Under a token that stays valid, with an API server that answers with the
    event pages, the walk ends in the world these answers leave. *)
Lemma checkpoint_walk_under_valid_token {T} (w : World (event_page T))
      (checkpoint : option Z)
      (ps : list (event_page T)) (last : event_page T)
      (rs rest : list (reply (event_page T))) (fuel : nat) :
  api w = (rs ++ rest)%list ->
  map answer rs = map Ok (ps ++ [last])%list ->
  Forall (fun p => 0 < remaining_count p) ps ->
  remaining_count last <= 0 ->
  0 <= sleepTime (client w) ->
  token_valid_at (client w) (now w + elapsed (sleepTime (client w)) rs) ->
  (List.length rs < fuel)%nat ->
  let start := match checkpoint with Some c => c | None => 0 end in
  SaasClient.getAccountChanges fuel checkpoint w
  = Some (Return (List.concat (map events (ps ++ [last]))),
          served w rs rest
                 (map (fun path => api_request (client w) GET path NoData)
                      (map (changes_path "/events/account_scoring")
                           (start :: map next_checkpoint ps)))).
Proof.
  intros Hq Hrs Hps Hlast Hpause Hv Hfuel start.
  assert (Hlen : List.length rs = List.length (ps ++ [last])%list).
  { apply (f_equal (@List.length _)) in Hrs.
    rewrite !length_map in Hrs. exact Hrs. }
  rewrite <- event_paths_snoc with (last := last).
  unfold SaasClient.getAccountChanges. rewrite try_rethrow.
  apply (changes_loop_serves _ ps w _ 1 start [] last fuel);
    [ | lia | exact Hps | exact Hlast | lia].
  apply valid_token_serves_events; assumption.
Qed.

(** ** Claims about the token manager *)

Lemma seconds_lt (t q : Z) : t < 1000 * q -> seconds t < q.
Proof.
  intros H. unfold seconds. apply Z.div_lt_upper_bound; lia.
Qed.

Lemma snoc_neq {A} (l : list A) (x : A) : (l ++ [x])%list <> l.
Proof.
  intros H. apply (f_equal (@List.length A)) in H.
  rewrite length_app in H. simpl in H. lia.
Qed.

Lemma checkToken_refresh {B} (w : World B) r rest body :
  truthy (token (client w)) = false
  \/ tokenRefresh (client w) < seconds (now w) ->
  oauth w = r :: rest -> answer r = Ok body ->
  SaasClient.checkToken w
  = Some (Return true,
          advance (sleepTime (client w))
                  (with_client (set_token (Some (access_token body)))
                               (exchanged 100 w r body))).
Proof.
  intros Hstale Hq Ha.
  unfold SaasClient.checkToken. rewrite try_rethrow.
  unfold bind at 1 2 3 4. unfold get_field at 1 2. unfold Date_now at 1.
  assert (Hc : negb (truthy (token (client w)))
               || (tokenRefresh (client w) <? seconds (now w)) = true).
  { destruct Hstale as [H | H].
    - rewrite H. reflexivity.
    - apply orb_true_iff. right. apply Z.ltb_lt. exact H. }
  rewrite Hc. unfold bind at 1.
  rewrite (getToken_ok w r rest body Hq Ha). reflexivity.
Qed.

Lemma checkToken2_refresh {B} (w : World B) r rest body :
  truthy (token (client w)) = false
  \/ tokenRefresh (client w) < seconds (now w) ->
  oauth w = r :: rest -> answer r = Ok body ->
  SaasClient2.checkToken w
  = Some (Return true,
          advance (sleepTime (client w))
                  (with_client (set_token (Some (access_token body)))
                               (exchanged 0 w r body))).
Proof.
  intros Hstale Hq Ha.
  unfold SaasClient2.checkToken.
  unfold bind at 1 2 3 4. unfold get_field at 1 2. unfold Date_now at 1.
  assert (Hc : negb (truthy (token (client w)))
               || (tokenRefresh (client w) <? seconds (now w)) = true).
  { destruct Hstale as [H | H].
    - rewrite H. reflexivity.
    - apply orb_true_iff. right. apply Z.ltb_lt. exact H. }
  rewrite Hc. unfold bind at 1.
  rewrite (getToken2_ok w r rest body Hq Ha).
  unfold exchanged. rewrite Z.sub_0_r. reflexivity.
Qed.

(** C3. While a token is held and its expiry instant lies in the future, the
    validity check of either class performs no network exchange: it only
    waits for the throttle and hands the cached token on, in [#token], to
    the verb that called it, whose one request carries that token. Hence
    two successive checks by a client that starts without a token, the
    granted token being still in its validity window at the second check,
    issue exactly one OAuth2 request in total. *)
Theorem checkToken_reuses_token {B} :
  (forall w : World B,
      truthy (token (client w)) = true ->
      now w < 1000 * tokenRefresh (client w) ->
      SaasClient.checkToken w
      = Some (Return true, advance (sleepTime (client w)) w)
      /\ SaasClient2.checkToken w
         = Some (Return true, advance (sleepTime (client w)) w)
      /\ token (client (advance (sleepTime (client w)) w)) = token (client w)
      /\ trace (advance (sleepTime (client w)) w) = trace w
      /\ (forall url,
             exists r w',
               SaasClient.get url w = Some (r, w')
               /\ trace w'
                  = (trace w
                       ++ [mkRequest GET
                                     (siteURL (client w) ++ "/api/"
                                        ++ version (client w) ++ url)
                                     (Bearer (token (client w))) NoData])%list))
  /\ (forall (w : World B) r rest body,
         truthy (token (client w)) = false ->
         oauth w = r :: rest -> answer r = Ok body ->
         truthy (Some (access_token body)) = true ->
         now w + Z.of_N (latency r) + sleepTime (client w)
         < 1000 * (seconds (now w + Z.of_N (latency r))
                   + expires_in body - 100) ->
         exists w2 w2',
           (SaasClient.checkToken ;; SaasClient.checkToken) w
           = Some (Return true, w2)
           /\ trace w2 = (trace w ++ [token_request (client w)])%list
           /\ token (client w2) = Some (access_token body)
           /\ (SaasClient2.checkToken ;; SaasClient2.checkToken) w
              = Some (Return true, w2')
           /\ trace w2' = (trace w ++ [token_request (client w)])%list
           /\ token (client w2') = Some (access_token body)).
Proof.
  split.
  - intros w Hheld Hfuture.
    assert (Hv : token_valid_at (client w) (now w)).
    { split; [exact Hheld | ]. pose proof (seconds_lt _ _ Hfuture). lia. }
    split; [apply checkToken_valid; exact Hv | ].
    split; [apply checkToken2_valid; exact Hv | ].
    split; [reflexivity | ].
    split; [reflexivity | ].
    intros url. exact (get_sends url w Hv).
  - intros w r rest body Hnone Hq Ha Htok Hwindow.
    eexists. eexists.
    unfold bind.
    rewrite (checkToken_refresh w r rest body (or_introl Hnone) Hq Ha).
    rewrite (checkToken2_refresh w r rest body (or_introl Hnone) Hq Ha).
    rewrite checkToken_valid.
    2:{ split; [exact Htok | ]. simpl.
        pose proof (seconds_lt _ _ Hwindow). lia. }
    rewrite checkToken2_valid.
    2:{ split; [exact Htok | ]. simpl.
        assert (Hw0 : now w + Z.of_N (latency r) + sleepTime (client w)
                      < 1000 * (seconds (now w + Z.of_N (latency r))
                                + expires_in body - 0)) by lia.
        pose proof (seconds_lt _ _ Hw0). lia. }
    repeat split.
Qed.

(** P1: a client starting without a token checks twice and the OAuth2 server
    is asked once; a third check under the cached token asks nothing. *)
Lemma checkToken_twice_one_exchange :
  (exists w2,
      (SaasClient.checkToken ;; SaasClient.checkToken) cold_start
      = Some (Return true, w2)
      /\ map r_url (trace w2)
         = [ "https://brain.portal.vectra.ai/oauth2/token" ]
      /\ token (client w2) = Some "tok")
  /\ SaasClient.checkToken (world_of (B := unit) brain [])
     = Some (Return true, advance 500 (world_of brain [])).
Proof.
  split.
  - destruct (proj2 (@checkToken_reuses_token unit) cold_start
                    _ _ (mkTokenBody "tok" 3600)
                    eq_refl eq_refl eq_refl eq_refl
                    ltac:(vm_compute; reflexivity))
      as (w2 & w2' & Hrun & Htrace & Htok & _).
    exists w2. split; [exact Hrun | ]. split; [ | exact Htok].
    rewrite Htrace. reflexivity.
  - exact (proj1 (proj1 (@checkToken_reuses_token unit)
                        (world_of brain []) eq_refl
                        ltac:(vm_compute; reflexivity))).
Defined.

(** C4 (as amended). After a successful exchange the stored expiry is
    [floor(now / 1000) + expires_in - 100] in the first class and
    [floor(now / 1000) + expires_in] in the second, [now] being the instant
    the answer arrived. Nothing is clamped: the stored expiry is not earlier
    than that instant exactly when [expires_in] is at least the margin. *)
Theorem getToken_stores_expiry {B} (w : World B) r rest body :
  oauth w = r :: rest -> answer r = Ok body ->
  exists w1 w2,
    SaasClient.getToken w = Some (Return (access_token body), w1)
    /\ now w1 = now w + Z.of_N (latency r)
    /\ tokenRefresh (client w1) = seconds (now w1) + expires_in body - 100
    /\ (seconds (now w1) <= tokenRefresh (client w1)
        <-> 100 <= expires_in body)
    /\ SaasClient2.getToken w = Some (Return (access_token body), w2)
    /\ now w2 = now w + Z.of_N (latency r)
    /\ tokenRefresh (client w2) = seconds (now w2) + expires_in body
    /\ (seconds (now w2) <= tokenRefresh (client w2)
        <-> 0 <= expires_in body).
Proof.
  intros Hq Ha.
  eexists. eexists.
  split; [exact (getToken_ok w r rest body Hq Ha) | ].
  split; [reflexivity | ].
  split; [reflexivity | ].
  split; [simpl; lia | ].
  split; [exact (getToken2_ok w r rest body Hq Ha) | ].
  split; [reflexivity | ].
  split; [reflexivity | ].
  simpl; lia.
Qed.

Lemma getToken_stores_expiry_hour :
  exists w1,
    SaasClient.getToken cold_start = Some (Return "tok", w1)
    /\ now w1 = 1000040
    /\ tokenRefresh (client w1) = 4500.
Proof.
  destruct (getToken_stores_expiry cold_start _ _ (mkTokenBody "tok" 3600)
                                   eq_refl eq_refl)
    as (w1 & _ & Hrun & Hnow & Hexp & _).
  exists w1. split; [exact Hrun | ]. split; [exact Hnow | ].
  rewrite Hexp, Hnow. reflexivity.
Defined.

(** C4 as stated fails: a grant for 50 seconds leaves an expiry 50 seconds
    before the instant of the exchange, not that instant. *)
Lemma getToken_expiry_before_now :
  exists w1,
    SaasClient.getToken short_lived_grant = Some (Return "tok", w1)
    /\ seconds (now w1) = 1000
    /\ tokenRefresh (client w1) = 950
    /\ tokenRefresh (client w1) < seconds (now w1).
Proof.
  eexists. split; [vm_compute; reflexivity | ].
  repeat split.
Qed.

(** C5 (as amended). The validity check performs the OAuth2 exchange if and
    only if no token is held or the current second is strictly later than
    the stored expiry; when the current second equals the stored expiry it
    issues no request. *)
Theorem checkToken_exchange_iff {B} (w : World B) :
  exists r w',
    SaasClient.checkToken w = Some (r, w')
    /\ (trace w' = (trace w ++ [token_request (client w)])%list
        <-> (truthy (token (client w)) = false
             \/ tokenRefresh (client w) < seconds (now w)))
    /\ (trace w' = trace w
        <-> (truthy (token (client w)) = true
             /\ seconds (now w) <= tokenRefresh (client w))).
Proof.
  destruct (truthy (token (client w))) eqn:Hheld.
  - destruct (Z.lt_ge_cases (tokenRefresh (client w)) (seconds (now w)))
      as [Hlate | Hfresh].
    + destruct (checkToken_stale w) as (r & w' & Hrun & Htr).
      { right. exact Hlate. }
      exists r, w'. split; [exact Hrun | ]. rewrite Htr. split.
      * split; [intros _; right; exact Hlate | reflexivity].
      * split; [intros H; destruct (snoc_neq _ _ H) | intros [_ H]; lia].
    + eexists. eexists. split.
      { apply checkToken_valid. split; assumption. }
      simpl. split.
      * split.
        -- intros H. symmetry in H. destruct (snoc_neq _ _ H).
        -- intros [H | H]; [discriminate | lia].
      * split; [intros _; split; [reflexivity | exact Hfresh] | reflexivity].
  - destruct (checkToken_stale w) as (r & w' & Hrun & Htr).
    { left. exact Hheld. }
    exists r, w'. split; [exact Hrun | ]. rewrite Htr. split.
    + split; [intros _; left; reflexivity | reflexivity].
    + split; [intros H; destruct (snoc_neq _ _ H) | intros [H _]; discriminate].
Qed.

(** C5 as stated fails: at the second the stored expiry names, with the
    OAuth2 server ready to answer, the check asks nothing and keeps the
    cached token. *)
Lemma checkToken_no_refresh_at_expiry :
  seconds (now at_expiry) = tokenRefresh (client at_expiry)
  /\ now at_expiry = 1000 * tokenRefresh (client at_expiry)
  /\ SaasClient.checkToken at_expiry
     = Some (Return true, advance 500 at_expiry)
  /\ trace (advance 500 at_expiry) = []
  /\ token (client (advance 500 at_expiry)) = Some "tok".
Proof. repeat split. Qed.

(** ** Claims about the verbs *)

(** C6 fails on the code: in no world does [#patch] or [#delete] throw the
    object [{status, statusText, url}]. At a 404 answer [#get], [#post] and
    [#put] throw that object, but [#patch] and [#delete] rethrow the error
    of the transport library as it came, response attached. Without a
    response all five rethrow the transport error. *)
Theorem patch_and_delete_rethrow_raw :
  let base := "https://brain.portal.vectra.ai/api/v3" in
  (forall B (w : World B) url body st text u,
      thrown (SaasClient.patch url body w) <> Some (Normalized st text u)
      /\ thrown (SaasClient.delete url body w) <> Some (Normalized st text u))
  /\ thrown (SaasClient.getDetection 999 not_found)
  = Some (Normalized 404 "Not Found" (base ++ "/detections/999"))
  /\ thrown (SaasClient.addDetectionNote 999 "n" not_found)
     = Some (Normalized 404 "Not Found" (base ++ "/detections/999/notes"))
  /\ thrown (SaasClient.resolveAssignment 999 "1" not_found)
     = Some (Normalized 404 "Not Found" (base ++ "/assignments/999/resolve"))
  /\ thrown (SaasClient.updateDetectionNote 999 1 "n" not_found)
     = Some (AxiosError
               (Some (mkResponse 404 "Not Found"
                                 (base ++ "/detections/999/notes/1"))))
  /\ thrown (SaasClient.deleteDetectionNote 999 1 not_found)
     = Some (AxiosError
               (Some (mkResponse 404 "Not Found"
                                 (base ++ "/detections/999/notes/1"))))
  /\ thrown (SaasClient.getDetection 999 unreachable)
     = Some (AxiosError None)
  /\ thrown (SaasClient.addDetectionNote 999 "n" unreachable)
     = Some (AxiosError None)
  /\ thrown (SaasClient.resolveAssignment 999 "1" unreachable)
     = Some (AxiosError None)
  /\ thrown (SaasClient.updateDetectionNote 999 1 "n" unreachable)
     = Some (AxiosError None)
  /\ thrown (SaasClient.deleteDetectionNote 999 1 unreachable)
     = Some (AxiosError None).
Proof.
  intros base. split; [ | repeat split].
  intros B w url body st text u.
  unfold SaasClient.patch, SaasClient.delete. rewrite !try_rethrow.
  unfold bind.
  destruct (SaasClient.checkToken w) as [[[ok | e] w0] | ] eqn:Hcheck;
    simpl; try (split; discriminate).
  - rewrite !call_run. unfold settle.
    destruct (hd_error (api w0)) as [[lat [b | st' text' | ]] | ]; simpl;
      split; discriminate.
  - destruct (checkToken_throws_raw _ _ _ Hcheck) as (resp & ->).
    split; discriminate.
Qed.

(** Under a valid token the normalising verbs turn every answered failure
    into the plain object, and the other two leave it raw. *)
Lemma verbs_on_rejection {B} (url : string) (body : payload) (w : World B)
      r rest st text :
  token_valid_at (client w) (now w) ->
  api w = r :: rest -> answer r = Rejected st text ->
  thrown (SaasClient.get url w)
  = Some (Normalized st text (r_url (api_request (client w) GET url NoData)))
  /\ thrown (SaasClient.post url body w)
     = Some (Normalized st text
                        (r_url (api_request (client w) POST url body)))
  /\ thrown (SaasClient.put url body w)
     = Some (Normalized st text (r_url (api_request (client w) PUT url body)))
  /\ thrown (SaasClient.patch url body w)
     = Some (AxiosError
               (Some (mkResponse st text
                        (r_url (api_request (client w) PATCH url body)))))
  /\ thrown (SaasClient.delete url body w)
     = Some (AxiosError
               (Some (mkResponse st text
                        (r_url (api_request (client w) DELETE url body))))).
Proof.
  intros Hv Hq Ha.
  unfold SaasClient.get, SaasClient.post, SaasClient.put, SaasClient.patch,
    SaasClient.delete.
  rewrite !try_rethrow. unfold try_catch.
  rewrite !(verb_run _ _ _ w Hv).
  unfold settle; simpl. rewrite Hq; simpl. rewrite Ha.
  repeat split.
Qed.

(** ** Claims about the tag operations *)

Lemma patch_sends {B} (url : string) (body : payload) (w : World B) :
  token_valid_at (client w) (now w) ->
  exists r w',
    SaasClient.patch url body w = Some (r, w')
    /\ trace w' = (trace w ++ [api_request (client w) PATCH url body])%list.
Proof.
  intros Hv. unfold SaasClient.patch. rewrite try_rethrow.
  rewrite (verb_run _ _ _ w Hv). unfold settle.
  destruct (hd_error (api w)) as [[lat [b | st text | ]] | ]; simpl;
    eexists; eexists; split; reflexivity.
Qed.

(** The read-modify-write shared by the tag operations: read the tags of
    [path], send [change] of them back with PATCH. *)
Lemma tags_read_modify_write (path : string)
      (change : list string -> list string) (w : World tags_body)
      r rest existing :
  api w = r :: rest -> answer r = Ok (mkTagsBody existing) ->
  0 <= sleepTime (client w) ->
  token_valid_at (client w) (now w + elapsed (sleepTime (client w)) [r]) ->
  exists res w',
    (existingTags <- (data <- SaasClient.get path ;; ret (tags data)) ;;
     SaasClient.patch path (TagsData (change existingTags))) w
    = Some (res, w')
    /\ trace w'
       = (trace w
            ++ [ api_request (client w) GET path NoData;
                 api_request (client w) PATCH path
                             (TagsData (change existing)) ])%list.
Proof.
  intros Hq Ha Hpause Hv.
  assert (Hnow : token_valid_at (client w) (now w)).
  { eapply token_valid_earlier; [ | exact Hv]. simpl. lia. }
  unfold bind at 1 2.
  rewrite (get_served path w r rest _ Hnow Hq Ha).
  unfold ret.
  destruct (patch_sends path (TagsData (change existing))
                        (served w [r] rest
                                [api_request (client w) GET path NoData]))
    as (res & w' & Hrun & Htr).
  { exact Hv. }
  exists res, w'. split; [exact Hrun | ].
  rewrite Htr. simpl. rewrite <- app_assoc. reflexivity.
Qed.

(** C7 (as amended). The tag-adding operations read the current tags and
    send with PATCH, to the same tagging path, the supplied tags followed by
    the current ones, as the body [{tags: [...]}]. *)
Theorem addTags_sends_new_then_existing (w : World tags_body) (id : Z)
        (new existing : list string) r rest :
  api w = r :: rest -> answer r = Ok (mkTagsBody existing) ->
  0 <= sleepTime (client w) ->
  token_valid_at (client w) (now w + elapsed (sleepTime (client w)) [r]) ->
  (exists res w',
      SaasClient.addDetectionTags id new w = Some (res, w')
      /\ trace w'
         = (trace w
              ++ [ api_request (client w) GET
                               ("/tagging/detection/" ++ show id) NoData;
                   api_request (client w) PATCH
                               ("/tagging/detection/" ++ show id)
                               (TagsData (new ++ existing)%list) ])%list)
  /\ (exists res w',
         SaasClient.addAccountTags id new w = Some (res, w')
         /\ trace w'
            = (trace w
                 ++ [ api_request (client w) GET
                                  ("/tagging/account/" ++ show id) NoData;
                      api_request (client w) PATCH
                                  ("/tagging/account/" ++ show id)
                                  (TagsData (new ++ existing)%list) ])%list).
Proof.
  intros Hq Ha Hpause Hv. split.
  - unfold SaasClient.addDetectionTags, SaasClient.getDetectionTags.
    rewrite try_rethrow.
    destruct (tags_read_modify_write ("/tagging/detection/" ++ show id)
                (fun existingTags => (new ++ existingTags)%list)
                w r rest existing Hq Ha Hpause Hv)
      as (res & w' & Hrun & Htr).
    exists res, w'. split; [ | exact Htr].
    rewrite <- Hrun. unfold bind at 1 3. rewrite try_rethrow. reflexivity.
  - unfold SaasClient.addAccountTags, SaasClient.getAccountTags.
    rewrite try_rethrow.
    destruct (tags_read_modify_write ("/tagging/account/" ++ show id)
                (fun existingTags => (new ++ existingTags)%list)
                w r rest existing Hq Ha Hpause Hv)
      as (res & w' & Hrun & Htr).
    exists res, w'. split; [ | exact Htr].
    rewrite <- Hrun. unfold bind at 1 3. rewrite try_rethrow. reflexivity.
Qed.

Lemma addTags_new_before_old :
  map r_data (sent (SaasClient.addDetectionTags 7 ["new"] tagged_old))
  = [NoData; TagsData ["new"; "old"]].
Proof.
  destruct (proj1 (addTags_sends_new_then_existing
                     tagged_old 7 ["new"] ["old"] _ _ eq_refl eq_refl
                     ltac:(vm_compute; discriminate)
                     ltac:(split; [reflexivity | vm_compute; discriminate])))
    as (res & w' & Hrun & Htr).
  rewrite Hrun. unfold sent. rewrite Htr. reflexivity.
Defined.

(** C7 as stated fails: with the tag ["old"] on the entity, adding ["new"]
    sends [["new", "old"]], not the current tags followed by the supplied
    ones. *)
Lemma addTags_not_appended_after_existing :
  map r_data (sent (SaasClient.addDetectionTags 7 ["new"] tagged_old))
  = [NoData; TagsData ["new"; "old"]]
  /\ map r_data (sent (SaasClient.addAccountTags 7 ["new"] tagged_old))
     = [NoData; TagsData ["new"; "old"]]
  /\ TagsData ["new"; "old"] <> TagsData (["old"] ++ ["new"])%list.
Proof. repeat split. discriminate. Qed.

Lemma delete_tag_loop_absent (tag : string) (k : nat) :
  forall a : list string, ~ In tag a -> delete_tag_loop k tag a = a.
Proof.
  induction k as [ | i IH]; intros a Habsent; simpl.
  - reflexivity.
  - destruct (nth_error a i) as [t | ] eqn:Hnth.
    + assert (Hneq : (t =? tag)%string = false).
      { apply String.eqb_neq. intros ->.
        apply Habsent. eapply nth_error_In. exact Hnth. }
      rewrite Hneq. apply IH. exact Habsent.
    + apply IH. exact Habsent.
Qed.

(** What the loop computes in general: the tags other than [tag], in their
    order. *)
Lemma delete_tag_loop_filter (tag : string) (k : nat) :
  forall a : list string,
    (k <= List.length a)%nat ->
    delete_tag_loop k tag a
    = (filter (fun t => negb (t =? tag)%string) (firstn k a)
         ++ skipn k a)%list.
Proof.
  induction k as [ | i IH]; intros a Hk; cbn [delete_tag_loop].
  - reflexivity.
  - destruct (nth_error a i) as [t | ] eqn:Hnth.
    2:{ apply nth_error_None in Hnth. lia. }
    assert (Hsplit : firstn (S i) a = (firstn i a ++ [t])%list).
    { clear IH. revert i Hk Hnth.
      induction a as [ | x a IHa]; intros i Hk Hnth.
      - simpl in Hk. lia.
      - destruct i as [ | i].
        + simpl in Hnth. injection Hnth as ->. reflexivity.
        + simpl in Hnth, Hk. rewrite !firstn_cons.
          rewrite (IHa i); [reflexivity | lia | exact Hnth]. }
    assert (Hskip : skipn i a = t :: skipn (S i) a).
    { clear IH Hsplit. revert i Hk Hnth.
      induction a as [ | x a IHa]; intros i Hk Hnth.
      - simpl in Hk. lia.
      - destruct i as [ | i].
        + simpl in Hnth. injection Hnth as ->. reflexivity.
        + simpl in Hnth, Hk. rewrite !skipn_cons.
          apply IHa; [lia | exact Hnth]. }
    rewrite Hsplit, filter_app. cbn [filter].
    destruct (t =? tag)%string eqn:Heq; cbn [negb].
    + rewrite app_nil_r.
      rewrite IH.
      * unfold splice1.
        rewrite firstn_app, firstn_firstn, Nat.min_id, length_firstn.
        replace (i - Nat.min i (List.length a))%nat with 0%nat by lia.
        cbn [firstn]. rewrite app_nil_r.
        rewrite skipn_app, length_firstn.
        replace (i - Nat.min i (List.length a))%nat with 0%nat by lia.
        cbn [skipn].
        rewrite skipn_all2 by (rewrite length_firstn; lia).
        reflexivity.
      * unfold splice1. rewrite length_app, length_firstn, length_skipn. lia.
    + rewrite IH by lia. rewrite Hskip, <- app_assoc. reflexivity.
Qed.

(** C9. When the tag to remove is not among the current tags, the
    tag-removal operations compute the current tags again and send them
    unchanged as the body of their PATCH. *)
Theorem deleteTag_absent_sends_same_tags (w : World tags_body) (id : Z)
        (tag : string) (existing : list string) r rest :
  ~ In tag existing ->
  api w = r :: rest -> answer r = Ok (mkTagsBody existing) ->
  0 <= sleepTime (client w) ->
  token_valid_at (client w) (now w + elapsed (sleepTime (client w)) [r]) ->
  delete_tag_loop (List.length existing) tag existing = existing
  /\ (exists res w',
         SaasClient.deleteDetectionTag id tag w = Some (res, w')
         /\ trace w'
            = (trace w
                 ++ [ api_request (client w) GET
                                  ("/tagging/detection/" ++ show id) NoData;
                      api_request (client w) PATCH
                                  ("/tagging/detection/" ++ show id)
                                  (TagsData existing) ])%list)
  /\ (exists res w',
         SaasClient.deleteAccountTag id tag w = Some (res, w')
         /\ trace w'
            = (trace w
                 ++ [ api_request (client w) GET
                                  ("/tagging/account/" ++ show id) NoData;
                      api_request (client w) PATCH
                                  ("/tagging/account/" ++ show id)
                                  (TagsData existing) ])%list).
Proof.
  intros Habsent Hq Ha Hpause Hv.
  pose proof (delete_tag_loop_absent tag (List.length existing)
                                     existing Habsent) as Hsame.
  split; [exact Hsame | split].
  - unfold SaasClient.deleteDetectionTag, SaasClient.getDetectionTags.
    rewrite try_rethrow.
    destruct (tags_read_modify_write ("/tagging/detection/" ++ show id)
                (fun existingTags =>
                   delete_tag_loop (List.length existingTags) tag
                                   existingTags)
                w r rest existing Hq Ha Hpause Hv)
      as (res & w' & Hrun & Htr).
    exists res, w'. split; [ | rewrite Htr, Hsame; reflexivity].
    rewrite <- Hrun. unfold bind at 1 3. rewrite try_rethrow. reflexivity.
  - unfold SaasClient.deleteAccountTag, SaasClient.getAccountTags.
    rewrite try_rethrow.
    destruct (tags_read_modify_write ("/tagging/account/" ++ show id)
                (fun existingTags =>
                   delete_tag_loop (List.length existingTags) tag
                                   existingTags)
                w r rest existing Hq Ha Hpause Hv)
      as (res & w' & Hrun & Htr).
    exists res, w'. split; [ | rewrite Htr, Hsame; reflexivity].
    rewrite <- Hrun. unfold bind at 1 3. rewrite try_rethrow. reflexivity.
Qed.

(** P5: removing ["absent"] from an entity tagged ["old"] sends ["old"]. *)
Lemma deleteTag_absent_keeps_old :
  map r_data (sent (SaasClient.deleteDetectionTag 7 "absent" tagged_old))
  = [NoData; TagsData ["old"]].
Proof.
  destruct (proj1 (proj2 (deleteTag_absent_sends_same_tags
                     tagged_old 7 "absent" ["old"] _ _
                     ltac:(simpl; intros [H | []]; discriminate H)
                     eq_refl eq_refl
                     ltac:(vm_compute; discriminate)
                     ltac:(split; [reflexivity | vm_compute; discriminate]))))
    as (res & w' & Hrun & Htr).
  rewrite Hrun. unfold sent. rewrite Htr. reflexivity.
Defined.

(** ** Claims about request paths *)

(** C8 fails on the code: for every rule ID, in both classes, the one DELETE
    that [deleteTriageRule] sends goes to [.../rules{ruleID}], the ID glued
    to [/rules] with no slash, while [getTriageRule] asks for
    [.../rules/{ruleID}]. *)
Theorem deleteTriageRule_omits_slash :
  (forall B (ruleID : Z) (w : World B),
      exists r w' new,
        SaasClient.deleteTriageRule ruleID w = Some (r, w')
        /\ trace w' = (trace w ++ new)%list
        /\ Forall (fun q =>
                     r_method q = DELETE ->
                     r_url q = siteURL (client w) ++ "/api/"
                                 ++ version (client w)
                                 ++ "/rules" ++ show ruleID) new)
  /\ (forall B (ruleID : Z) (w : World B),
         exists r w' new,
           SaasClient2.deleteTriageRule ruleID w = Some (r, w')
           /\ trace w' = (trace w ++ new)%list
           /\ Forall (fun q =>
                        r_method q = DELETE ->
                        r_url q = siteURL (client w) ++ "/api/v3"
                                    ++ "/rules" ++ show ruleID) new)
  /\ map (fun q => (r_method q, r_url q))
         (sent (SaasClient.deleteTriageRule 42 one_answer))
     = [ (DELETE, "https://brain.portal.vectra.ai/api/v3/rules42") ]
  /\ map (fun q => (r_method q, r_url q))
         (sent (SaasClient2.deleteTriageRule 42 one_answer))
     = [ (DELETE, "https://brain.portal.vectra.ai/api/v3/rules42") ]
  /\ map (fun q => (r_method q, r_url q))
         (sent (SaasClient.getTriageRule 42 one_answer))
     = [ (GET, "https://brain.portal.vectra.ai/api/v3/rules/42") ].
Proof.
  split; [ | split; [ | repeat split]].
  - intros B ruleID w.
    unfold SaasClient.deleteTriageRule, SaasClient.delete.
    rewrite !try_rethrow.
    destruct (checkToken_outcome w)
      as (r & w1 & posted & Hrun & Htr & Hpost & Hsite & Hver).
    unfold bind. rewrite Hrun. destruct r as [ok | e].
    + rewrite call_run. unfold settle.
      destruct (hd_error (api w1)) as [[lat [b | st text | ]] | ];
        simpl; eexists; eexists;
        exists (posted ++ [api_request (client w1) DELETE
                             ("/rules" ++ show ruleID) NoData])%list;
        (split; [reflexivity | ]);
        (split; [simpl; rewrite Htr, <- app_assoc; reflexivity | ]);
        (apply Forall_app; split; [apply posts_are_not_deletes; exact Hpost | ]);
        constructor; [ | constructor | | constructor | | constructor
                       | | constructor];
        intros _; simpl; rewrite Hsite, Hver; reflexivity.
    + exists (Throw e), w1, posted.
      split; [reflexivity | split; [exact Htr | ]].
      apply posts_are_not_deletes. exact Hpost.
  - intros B ruleID w.
    unfold SaasClient2.deleteTriageRule, SaasClient2.delete.
    destruct (checkToken2_outcome w)
      as (r & w1 & posted & Hrun & Htr & Hpost & Hsite).
    unfold bind. rewrite Hrun. destruct r as [ok | e].
    + unfold SaasClient2.call, bind, get_field, axios, settle. simpl.
      destruct (hd_error (api w1)) as [[lat [b | st text | ]] | ];
        simpl; eexists; eexists;
        exists (posted ++ [api_request2 (client w1) DELETE
                             ("/rules" ++ show ruleID) NoData])%list;
        (split; [reflexivity | ]);
        (split; [simpl; rewrite Htr, <- app_assoc; reflexivity | ]);
        (apply Forall_app; split; [apply posts_are_not_deletes; exact Hpost | ]);
        constructor; [ | constructor | | constructor | | constructor
                       | | constructor];
        intros _; simpl; rewrite Hsite; reflexivity.
    + exists (Throw e), w1, posted.
      split; [reflexivity | split; [exact Htr | ]].
      apply posts_are_not_deletes. exact Hpost.
Qed.

(** C10 fails on the code of the second class: without an argument its
    [getAllAccounts] (and [getAllDetections]) throws at [Object.keys] before
    any request is sent. With an empty object, and in the first class also
    without an argument, the first request goes to [/detections?page=1],
    respectively [/accounts?page=1], with nothing appended. *)
Theorem getAllAccounts_without_options :
  (forall T fuel (w : World (page T)),
      SaasClient2.getAllAccounts fuel None w
      = Some (Throw (TypeError "Cannot convert undefined or null to object"),
              w))
  /\ sent (SaasClient2.getAllAccounts 2 None one_page) = []
  /\ map r_url (sent (SaasClient.getAllAccounts 2 None one_page))
     = [ "https://brain.portal.vectra.ai/api/v3/accounts?page=1" ]
  /\ map r_url (sent (SaasClient.getAllAccounts 2 (Some []) one_page))
     = [ "https://brain.portal.vectra.ai/api/v3/accounts?page=1" ]
  /\ map r_url (sent (SaasClient.getAllDetections 2 (Some []) one_page))
     = [ "https://brain.portal.vectra.ai/api/v3/detections?page=1" ]
  /\ map r_url (sent (SaasClient2.getAllAccounts 2 (Some []) one_page))
     = [ "https://brain.portal.vectra.ai/api/v3/accounts?page=1" ]
  /\ map r_url (sent (SaasClient2.getAllDetections 2 (Some []) one_page))
     = [ "https://brain.portal.vectra.ai/api/v3/detections?page=1" ]
  /\ replace_first tail_api_v3 ("/detections?page=1" ++ extra_of (Some []))
     = "/detections?page=1"
  /\ replace_first tail_api_v3 ("/accounts?page=1" ++ extra_of None)
     = "/accounts?page=1".
Proof. repeat split. Qed.

(** ** Further properties: stripping the host of a [next] URL *)

Lemma replace_first_eq (tail : string -> option string) (s : string) :
  replace_first tail s
  = match match_here tail s with
    | Some rest => rest
    | None =>
        match s with
        | EmptyString => EmptyString
        | String c r => String c (replace_first tail r)
        end
    end.
Proof. destruct s; reflexivity. Qed.

Lemma match_here_eq (tail : string -> option string) (c : ascii)
      (r : string) :
  match_here tail (String c r)
  = if line_terminator c then tail (String c r)
    else match match_here tail r with
         | Some rest => Some rest
         | None => tail (String c r)
         end.
Proof. reflexivity. Qed.

Lemma occurs_false (p : string) (c : ascii) (r : string) :
  occurs p (String c r) = false ->
  strip_literal p (String c r) = None /\ occurs p r = false.
Proof.
  cbn [occurs]. destruct (strip_literal p (String c r)); [discriminate | ].
  intros H. split; [reflexivity | exact H].
Qed.

Lemma tails_need_vectra (s : string) :
  strip_literal "vectra" s = None ->
  tail_api_v3 s = None /\ tail_host s = None.
Proof.
  intros H. unfold tail_api_v3, tail_host. rewrite H. split; reflexivity.
Qed.

Section NoMatch.

Variable tail : string -> option string.
Hypothesis tail_needs_vectra :
  forall s, strip_literal "vectra" s = None -> tail s = None.

Lemma no_vectra_no_match (s : string) :
  occurs "vectra" s = false -> match_here tail s = None.
Proof.
  induction s as [ | c r IH]; intros Hs.
  - apply tail_needs_vectra. reflexivity.
  - apply occurs_false in Hs. destruct Hs as [Hhead Hr].
    rewrite match_here_eq, (IH Hr), (tail_needs_vectra _ Hhead).
    destruct (line_terminator c); reflexivity.
Qed.

Lemma no_vectra_no_replace (s : string) :
  occurs "vectra" s = false -> replace_first tail s = s.
Proof.
  induction s as [ | c r IH]; intros Hs.
  - rewrite replace_first_eq, (no_vectra_no_match _ Hs). reflexivity.
  - rewrite replace_first_eq, (no_vectra_no_match _ Hs).
    apply occurs_false in Hs. rewrite (IH (proj2 Hs)). reflexivity.
Qed.

(** The greedy [.*] runs over a prefix without line terminator. *)
Lemma match_here_prefix (p s rest : string) :
  one_line p = true ->
  match_here tail s = Some rest ->
  match_here tail (p ++ s) = Some rest.
Proof.
  intros Hp Hs. induction p as [ | c p IH]; [exact Hs | ].
  cbn [one_line] in Hp. apply andb_prop in Hp. destruct Hp as [Hc Hp].
  cbn [append]. rewrite match_here_eq, (IH Hp).
  destruct (line_terminator c); [discriminate Hc | reflexivity].
Qed.

End NoMatch.

Lemma match_api_v3 (r : string) :
  occurs "vectra" r = false -> rooted r = true ->
  match_here tail_api_v3 ("vectra.ai/api/v3" ++ r) = Some r.
Proof.
  intros Hr Hroot.
  pose proof (no_vectra_no_match tail_api_v3
                (fun s H => proj1 (tails_need_vectra s H)) r Hr) as Hnone.
  cbn [append]. rewrite !match_here_eq. rewrite Hnone.
  destruct r as [ | c r]; [reflexivity | ].
  simpl in Hroot. cbn. rewrite Hroot. reflexivity.
Qed.

Lemma match_host (r : string) :
  occurs "vectra" r = false ->
  match_here tail_host ("vectra.ai" ++ r) = Some r.
Proof.
  intros Hr.
  pose proof (no_vectra_no_match tail_host
                (fun s H => proj2 (tails_need_vectra s H)) r Hr) as Hnone.
  cbn [append]. rewrite !match_here_eq. rewrite Hnone. reflexivity.
Qed.

(** X1. A string in which [vectra] does not occur goes through both
    replacements unchanged: a relative [next] and the first path of a walk
    are requested as they are. *)
Theorem replace_keeps_strings_without_host (s : string) :
  occurs "vectra" s = false ->
  replace_first tail_api_v3 s = s /\ replace_first tail_host s = s.
Proof.
  intros Hs. split.
  - apply no_vectra_no_replace; [ | exact Hs].
    intros s' H. exact (proj1 (tails_need_vectra s' H)).
  - apply no_vectra_no_replace; [ | exact Hs].
    intros s' H. exact (proj2 (tails_need_vectra s' H)).
Qed.

Lemma replace_keeps_relative_path :
  replace_first tail_api_v3 "/detections?page=3&t_score_gte=1"
  = "/detections?page=3&t_score_gte=1".
Proof.
  exact (proj1 (replace_keeps_strings_without_host
                  "/detections?page=3&t_score_gte=1" eq_refl)).
Defined.

(** X2. The first class reduces a [next] of the form
    [<host>vectra.ai/api/v3<path>], with a one-line host and a path that is
    empty or begins with a slash and has no [vectra] in it, to [<path>]; the
    pattern of the second class reduces [<host>vectra.ai<rest>] to
    [<rest>]. *)
Theorem replace_strips_host (host path : string) :
  one_line host = true ->
  occurs "vectra" path = false ->
  (rooted path = true ->
   replace_first tail_api_v3 (host ++ "vectra.ai/api/v3" ++ path) = path)
  /\ replace_first tail_host (host ++ "vectra.ai" ++ path) = path.
Proof.
  intros Hhost Hpath. split.
  - intros Hroot.
    rewrite replace_first_eq.
    rewrite (match_here_prefix tail_api_v3 host _ path Hhost
                               (match_api_v3 path Hpath Hroot)).
    reflexivity.
  - rewrite replace_first_eq.
    rewrite (match_here_prefix tail_host host _ path Hhost
                               (match_host path Hpath)).
    reflexivity.
Qed.

Lemma replace_strips_brain_host :
  replace_first tail_api_v3
    "https://brain.portal.vectra.ai/api/v3/detections?page=2"
  = "/detections?page=2"
  /\ replace_first tail_host
       "https://brain.portal.vectra.ai/api/v3/detections?page=2"
     = "/api/v3/detections?page=2".
Proof.
  split.
  - exact (proj1 (replace_strips_host "https://brain.portal."
                    "/detections?page=2" eq_refl eq_refl) eq_refl).
  - exact (proj2 (replace_strips_host "https://brain.portal."
                    "/api/v3/detections?page=2" eq_refl eq_refl)).
Defined.

Lemma get2_served {B} (url : string) (w : World B) r rest b :
  token_valid_at (client w) (now w) ->
  api w = r :: rest -> answer r = Ok b ->
  SaasClient2.get url w
  = Some (Return b,
          served w [r] rest [api_request2 (client w) GET url NoData]).
Proof.
  intros Hv Hq Ha.
  unfold SaasClient2.get, bind. rewrite (checkToken2_valid w Hv).
  unfold SaasClient2.call, bind, get_field, axios, settle; simpl.
  rewrite Hq; simpl. rewrite Ha.
  unfold served, advance; simpl.
  do 3 f_equal; [lia | rewrite Hq; reflexivity].
Qed.




(** ** Further properties: tags *)

(** X4. The removal loop deletes every element equal to the tag and keeps
    the others in their order; the tag is not in what is left. *)
Theorem delete_tag_loop_removes_all (tag : string) (a : list string) :
  delete_tag_loop (List.length a) tag a
  = filter (fun t => negb (t =? tag)%string) a
  /\ ~ In tag (delete_tag_loop (List.length a) tag a).
Proof.
  assert (Heq : delete_tag_loop (List.length a) tag a
                = filter (fun t => negb (t =? tag)%string) a).
  { rewrite delete_tag_loop_filter by lia.
    rewrite firstn_all, skipn_all, app_nil_r. reflexivity. }
  split; [exact Heq | ].
  rewrite Heq. intros Hin. apply filter_In in Hin. destruct Hin as [_ Hne].
  rewrite String.eqb_refl in Hne. discriminate Hne.
Qed.

(** X5. Under a token that stays valid, the three tag-removal operations
    read the tags of the entity and send back, with PATCH to the same path,
    the tags other than the one to remove, in their order. *)
Theorem deleteTag_sends_other_tags (w : World tags_body) (id : Z)
        (tag : string) (existing : list string) r rest :
  api w = r :: rest -> answer r = Ok (mkTagsBody existing) ->
  0 <= sleepTime (client w) ->
  token_valid_at (client w) (now w + elapsed (sleepTime (client w)) [r]) ->
  let kept := filter (fun t => negb (t =? tag)%string) existing in
  (exists res w',
      SaasClient.deleteDetectionTag id tag w = Some (res, w')
      /\ trace w'
         = (trace w
              ++ [ api_request (client w) GET
                               ("/tagging/detection/" ++ show id) NoData;
                   api_request (client w) PATCH
                               ("/tagging/detection/" ++ show id)
                               (TagsData kept) ])%list)
  /\ (exists res w',
         SaasClient.deleteAccountTag id tag w = Some (res, w')
         /\ trace w'
            = (trace w
                 ++ [ api_request (client w) GET
                                  ("/tagging/account/" ++ show id) NoData;
                      api_request (client w) PATCH
                                  ("/tagging/account/" ++ show id)
                                  (TagsData kept) ])%list)
  /\ (exists res w',
         SaasClient.deleteHostTag id tag w = Some (res, w')
         /\ trace w'
            = (trace w
                 ++ [ api_request (client w) GET
                                  ("/tagging/host/" ++ show id) NoData;
                      api_request (client w) PATCH
                                  ("/tagging/host/" ++ show id)
                                  (TagsData kept) ])%list).
Proof.
  intros Hq Ha Hpause Hv kept.
  assert (Hkept : delete_tag_loop (List.length existing) tag existing = kept).
  { rewrite delete_tag_loop_filter by lia.
    rewrite firstn_all, skipn_all, app_nil_r. reflexivity. }
  assert (Hrmw : forall path,
             exists res w',
               (existingTags <- (data <- SaasClient.get path ;;
                                 ret (tags data)) ;;
                SaasClient.patch path
                  (TagsData (delete_tag_loop (List.length existingTags) tag
                                             existingTags))) w
               = Some (res, w')
               /\ trace w'
                  = (trace w
                       ++ [ api_request (client w) GET path NoData;
                            api_request (client w) PATCH path
                                        (TagsData kept) ])%list).
  { intros path.
    destruct (tags_read_modify_write path
                (fun existingTags =>
                   delete_tag_loop (List.length existingTags) tag
                                   existingTags)
                w r rest existing Hq Ha Hpause Hv)
      as (res & w' & Hrun & Htr).
    exists res, w'. split; [exact Hrun | rewrite Htr, Hkept; reflexivity]. }
  split; [ | split].
  - unfold SaasClient.deleteDetectionTag, SaasClient.getDetectionTags.
    rewrite try_rethrow.
    destruct (Hrmw ("/tagging/detection/" ++ show id))
      as (res & w' & Hrun & Htr).
    exists res, w'. split; [ | exact Htr].
    rewrite <- Hrun. unfold bind at 1 3. rewrite try_rethrow. reflexivity.
  - unfold SaasClient.deleteAccountTag, SaasClient.getAccountTags.
    rewrite try_rethrow.
    destruct (Hrmw ("/tagging/account/" ++ show id))
      as (res & w' & Hrun & Htr).
    exists res, w'. split; [ | exact Htr].
    rewrite <- Hrun. unfold bind at 1 3. rewrite try_rethrow. reflexivity.
  - unfold SaasClient.deleteHostTag, SaasClient.getHostTags.
    rewrite try_rethrow.
    destruct (Hrmw ("/tagging/host/" ++ show id))
      as (res & w' & Hrun & Htr).
    exists res, w'. split; [ | exact Htr].
    rewrite <- Hrun. unfold bind at 1 3. rewrite try_rethrow. reflexivity.
Qed.

Lemma deleteTag_removes_both_copies :
  map r_data (sent (SaasClient.deleteHostTag 7 "a" tagged_twice))
  = [NoData; TagsData ["b"; "c"]].
Proof.
  destruct (proj2 (proj2 (deleteTag_sends_other_tags
                     tagged_twice 7 "a" ["a"; "b"; "a"; "c"] _ _
                     eq_refl eq_refl
                     ltac:(vm_compute; discriminate)
                     ltac:(split; [reflexivity | vm_compute; discriminate]))))
    as (res & w' & Hrun & Htr).
  rewrite Hrun. unfold sent. rewrite Htr. reflexivity.
Defined.

(** X6. Under a token that stays valid, [addHostTags] reads the tags of the
    host and sends back, with PATCH to the same path, the supplied tags
    followed by the current ones; the three clearing operations send one
    PATCH with an empty tag list and read nothing. *)
Theorem addHostTags_and_clear (w : World tags_body) (id : Z)
        (new existing : list string) r rest :
  api w = r :: rest -> answer r = Ok (mkTagsBody existing) ->
  0 <= sleepTime (client w) ->
  token_valid_at (client w) (now w + elapsed (sleepTime (client w)) [r]) ->
  (exists res w',
      SaasClient.addHostTags id new w = Some (res, w')
      /\ trace w'
         = (trace w
              ++ [ api_request (client w) GET
                               ("/tagging/host/" ++ show id) NoData;
                   api_request (client w) PATCH
                               ("/tagging/host/" ++ show id)
                               (TagsData (new ++ existing)%list) ])%list)
  /\ (exists res w',
         SaasClient.clearDetectionTags id w = Some (res, w')
         /\ trace w'
            = (trace w
                 ++ [ api_request (client w) PATCH
                                  ("/tagging/detection/" ++ show id)
                                  (TagsData []) ])%list)
  /\ (exists res w',
         SaasClient.clearAccountTags id w = Some (res, w')
         /\ trace w'
            = (trace w
                 ++ [ api_request (client w) PATCH
                                  ("/tagging/account/" ++ show id)
                                  (TagsData []) ])%list)
  /\ (exists res w',
         SaasClient.clearHostTags id w = Some (res, w')
         /\ trace w'
            = (trace w
                 ++ [ api_request (client w) PATCH
                                  ("/tagging/host/" ++ show id)
                                  (TagsData []) ])%list).
Proof.
  intros Hq Ha Hpause Hv.
  assert (Hnow : token_valid_at (client w) (now w)).
  { eapply token_valid_earlier; [ | exact Hv]. simpl. lia. }
  split; [ | repeat split].
  - unfold SaasClient.addHostTags, SaasClient.getHostTags.
    rewrite try_rethrow.
    destruct (tags_read_modify_write ("/tagging/host/" ++ show id)
                (fun existingTags => (new ++ existingTags)%list)
                w r rest existing Hq Ha Hpause Hv)
      as (res & w' & Hrun & Htr).
    exists res, w'. split; [ | exact Htr].
    rewrite <- Hrun. unfold bind at 1 3. rewrite try_rethrow. reflexivity.
  - unfold SaasClient.clearDetectionTags. rewrite try_rethrow.
    apply patch_sends. exact Hnow.
  - unfold SaasClient.clearAccountTags. rewrite try_rethrow.
    apply patch_sends. exact Hnow.
  - unfold SaasClient.clearHostTags. rewrite try_rethrow.
    apply patch_sends. exact Hnow.
Qed.

Lemma addHostTags_new_before_old :
  map r_data (sent (SaasClient.addHostTags 7 ["new"] tagged_old))
  = [NoData; TagsData ["new"; "old"]].
Proof.
  destruct (proj1 (addHostTags_and_clear
                     tagged_old 7 ["new"] ["old"] _ _ eq_refl eq_refl
                     ltac:(vm_compute; discriminate)
                     ltac:(split; [reflexivity | vm_compute; discriminate])))
    as (res & w' & Hrun & Htr).
  rewrite Hrun. unfold sent. rewrite Htr. reflexivity.
Defined.

(** ** Further properties: checkpoints and authentication *)

(** X7. Under a token that stays valid, the two latest-checkpoint probes make
    exactly two fetches, the first from the sentinel 999999999999 and the
    second from the [next_checkpoint] the first answer reports, and return
    the [next_checkpoint] of the second answer. *)
Theorem latest_checkpoint_probes_twice {T} (w : World (event_page T))
        (p1 p2 : event_page T) r1 r2 rest :
  api w = r1 :: r2 :: rest ->
  answer r1 = Ok p1 -> answer r2 = Ok p2 ->
  0 <= sleepTime (client w) ->
  token_valid_at (client w)
                 (now w + elapsed (sleepTime (client w)) [r1; r2]) ->
  SaasClient.getLatestAccountCheckpoint w
  = Some (Return (next_checkpoint p2),
          served w [r1; r2] rest
            [ api_request (client w) GET
                (changes_path "/events/account_scoring" 999999999999) NoData;
              api_request (client w) GET
                (changes_path "/events/account_scoring" (next_checkpoint p1))
                NoData ])
  /\ SaasClient.getLatestDetectionCheckpoint w
     = Some (Return (next_checkpoint p2),
             served w [r1; r2] rest
               [ api_request (client w) GET
                   (changes_path "/events/account_detection" 999999999999)
                   NoData;
                 api_request (client w) GET
                   (changes_path "/events/account_detection"
                                 (next_checkpoint p1))
                   NoData ]).
Proof.
  intros Hq Ha1 Ha2 Hpause Hv.
  assert (Hnow : token_valid_at (client w) (now w)).
  { eapply token_valid_earlier; [ | exact Hv]. simpl. lia. }
  assert (Hrun : forall topic,
             (data <- SaasClient.get (changes_path topic 999999999999) ;;
              data <- SaasClient.get
                        (changes_path topic (next_checkpoint data)) ;;
              ret (next_checkpoint data)) w
             = Some (Return (next_checkpoint p2),
                     served w [r1; r2] rest
                       [ api_request (client w) GET
                           (changes_path topic 999999999999) NoData;
                         api_request (client w) GET
                           (changes_path topic (next_checkpoint p1))
                           NoData ])).
  { intros topic. unfold bind at 1.
    rewrite (get_served _ w r1 (r2 :: rest) p1 Hnow Hq Ha1).
    unfold bind at 1.
    rewrite (get_served _ _ r2 rest p2); [ | | reflexivity | exact Ha2].
    2:{ eapply token_valid_earlier; [ | exact Hv]. simpl. lia. }
    unfold ret.
    rewrite (served_served w r1 [r2] rest). reflexivity. }
  split.
  - unfold SaasClient.getLatestAccountCheckpoint. rewrite try_rethrow.
    exact (Hrun "/events/account_scoring").
  - unfold SaasClient.getLatestDetectionCheckpoint. rewrite try_rethrow.
    exact (Hrun "/events/account_detection").
Qed.

Lemma latest_checkpoint_at_head :
  exists w',
    SaasClient.getLatestAccountCheckpoint probe_world = Some (Return 108, w')
    /\ map r_url (trace w')
       = [ "https://brain.portal.vectra.ai/api/v3/events/account_scoring?limit=1000&from=999999999999";
           "https://brain.portal.vectra.ai/api/v3/events/account_scoring?limit=1000&from=108" ].
Proof.
  eexists. split.
  - exact (proj1 (latest_checkpoint_probes_twice
                    probe_world (mkEventPage [] 0 108) (mkEventPage [] 0 108)
                    _ _ [] eq_refl eq_refl eq_refl
                    ltac:(vm_compute; discriminate)
                    ltac:(split; [reflexivity | vm_compute; discriminate]))).
  - reflexivity.
Defined.

Lemma getToken_fails {B} (w : World B) r rest err :
  oauth w = r :: rest ->
  failure (siteURL (client w) ++ "/oauth2/token") (answer r) = Some err ->
  SaasClient.getToken w
  = Some (Throw err,
          mkWorld (client w) (now w + Z.of_N (latency r)) rest (api w)
                  (trace w ++ [token_request (client w)])).
Proof.
  intros Hq Hf.
  destruct w as [c t oa ap tr]; simpl in *; subst oa.
  unfold SaasClient.getToken. rewrite try_rethrow.
  unfold bind, get_field, axios_oauth, settle; simpl.
  destruct (answer r) as [body | st text | ]; simpl in Hf;
    [discriminate Hf | | ]; injection Hf as <-; reflexivity.
Qed.

(** X8. When an exchange is due and the OAuth2 server refuses or does not
    answer, the check throws the transport error as it came, keeps the token
    and its expiry as they were and does not wait for the throttle; a verb
    then sends no API request. [#get], [#post] and [#put] report a refusal
    as the normalised object whose [url] is the OAuth2 endpoint; [#patch]
    and [#delete] rethrow the transport error. *)
Theorem failed_exchange_sends_nothing {B} (w : World B) r rest err
        (url : string) (body : payload) :
  truthy (token (client w)) = false
  \/ tokenRefresh (client w) < seconds (now w) ->
  oauth w = r :: rest ->
  failure (siteURL (client w) ++ "/oauth2/token") (answer r) = Some err ->
  let w' := mkWorld (client w) (now w + Z.of_N (latency r)) rest (api w)
                    (trace w ++ [token_request (client w)]) in
  SaasClient.checkToken w = Some (Throw err, w')
  /\ SaasClient.get url w = Some (Throw (normalised err), w')
  /\ SaasClient.post url body w = Some (Throw (normalised err), w')
  /\ SaasClient.put url body w = Some (Throw (normalised err), w')
  /\ SaasClient.patch url body w = Some (Throw err, w')
  /\ SaasClient.delete url body w = Some (Throw err, w').
Proof.
  intros Hstale Hq Hf w'.
  assert (Hcheck : SaasClient.checkToken w = Some (Throw err, w')).
  { unfold SaasClient.checkToken. rewrite try_rethrow.
    unfold bind at 1 2 3 4. unfold get_field at 1 2. unfold Date_now at 1.
    assert (Hc : negb (truthy (token (client w)))
                 || (tokenRefresh (client w) <? seconds (now w)) = true).
    { destruct Hstale as [H | H].
      - rewrite H. reflexivity.
      - apply orb_true_iff. right. apply Z.ltb_lt. exact H. }
    rewrite Hc. unfold bind at 1.
    rewrite (getToken_fails w r rest err Hq Hf). reflexivity. }
  assert (Hnorm : normalise (B := B) (A := B) err w'
                  = Some (Throw (normalised err), w')).
  { destruct err as [[resp | ] | st text u | msg]; reflexivity. }
  unfold SaasClient.get, SaasClient.post, SaasClient.put, SaasClient.patch,
    SaasClient.delete.
  rewrite !try_rethrow. unfold try_catch, bind. rewrite Hcheck.
  repeat split; exact Hnorm.
Qed.

Lemma refused_client_sends_nothing :
  exists w',
    SaasClient.get "/detections/1" refused
    = Some (Throw (Normalized 401 "Unauthorized"
                              "https://brain.portal.vectra.ai/oauth2/token"),
            w')
    /\ fetched (trace w') = []
    /\ token (client w') = None
    /\ now w' = 1000040.
Proof.
  eexists. split.
  - exact (proj1 (proj2 (failed_exchange_sends_nothing
                           refused _ _ _ "/detections/1" NoData
                           (or_introl eq_refl) eq_refl eq_refl))).
  - repeat split.
Defined.

(** X9. When an exchange is due and the OAuth2 server grants a token, a fetch
    that the API server answers logs exactly two requests: the exchange,
    then the GET carrying the token just granted. The client then holds that
    token, and the call took both latencies plus the throttle. *)
Theorem fetch_authenticates_first {B} (w : World B) ro resto body
        ra resta (b : B) (path : string) :
  truthy (token (client w)) = false
  \/ tokenRefresh (client w) < seconds (now w) ->
  oauth w = ro :: resto -> answer ro = Ok body ->
  api w = ra :: resta -> answer ra = Ok b ->
  exists w',
    SaasClient.get path w = Some (Return b, w')
    /\ trace w'
       = (trace w
            ++ [ token_request (client w);
                 mkRequest GET (url_of (client w) path)
                           (Bearer (Some (access_token body))) NoData ])%list
    /\ token (client w') = Some (access_token body)
    /\ now w'
       = now w + Z.of_N (latency ro) + sleepTime (client w)
         + Z.of_N (latency ra)
    /\ oauth w' = resto /\ api w' = resta.
Proof.
  intros Hstale Hqo Hao Hqa Haa.
  unfold SaasClient.get, try_catch, bind.
  rewrite (checkToken_refresh w ro resto body Hstale Hqo Hao).
  rewrite call_run. unfold settle.
  destruct w as [c t oa ap tr]; simpl in *; subst oa ap; simpl.
  rewrite Haa. eexists. split; [reflexivity | ]. simpl.
  rewrite <- app_assoc. repeat split.
Qed.

Lemma expired_token_is_replaced :
  exists w',
    SaasClient.get "/detections/1" expired = Some (Return tt, w')
    /\ map r_auth (trace w') = [Basic "id:secret"; Bearer (Some "new")]
    /\ token (client w') = Some "new".
Proof.
  assert (Hlate : tokenRefresh (client expired) < seconds (now expired))
    by reflexivity.
  destruct (fetch_authenticates_first
              expired _ _ (mkTokenBody "new" 3600) _ _ tt "/detections/1"
              (or_intror Hlate) eq_refl eq_refl eq_refl eq_refl)
    as (w' & Hrun & Htr & Htok & _).
  exists w'. split; [exact Hrun | ]. split; [ | exact Htok].
  rewrite Htr. reflexivity.
Defined.

(** ** Further properties: what no operation changes *)

Lemma same_settings_refl (c : Client) : same_settings c c.
Proof. repeat split. Qed.

Lemma same_settings_trans (c1 c2 c3 : Client) :
  same_settings c1 c2 -> same_settings c2 c3 -> same_settings c1 c3.
Proof.
  unfold same_settings.
  intros (H1 & H2 & H3 & H4 & H5) (K1 & K2 & K3 & K4 & K5).
  repeat split; congruence.
Qed.

Lemma keeps_bind {B A C} (m : M B A) (k : A -> M B C) :
  keeps_settings m -> (forall a, keeps_settings (k a)) ->
  keeps_settings (bind m k).
Proof.
  intros Hm Hk w. unfold bind. specialize (Hm w).
  destruct (m w) as [[[a | e] w1] | ]; [ | exact Hm | exact I].
  specialize (Hk a w1).
  destruct (k a w1) as [[r w2] | ]; [ | exact I].
  eapply same_settings_trans; eassumption.
Qed.

Lemma keeps_try {B A} (m : M B A) (h : error -> M B A) :
  keeps_settings m -> (forall e, keeps_settings (h e)) ->
  keeps_settings (try_catch m h).
Proof.
  intros Hm Hh w. unfold try_catch. specialize (Hm w).
  destruct (m w) as [[[a | e] w1] | ]; [exact Hm | | exact I].
  specialize (Hh e w1).
  destruct (h e w1) as [[r w2] | ]; [ | exact I].
  eapply same_settings_trans; eassumption.
Qed.

Lemma keeps_ret {B A} (a : A) : keeps_settings (B := B) (ret a).
Proof. intros w. apply same_settings_refl. Qed.

Lemma keeps_throw {B A} (e : error) : keeps_settings (B := B) (A := A) (throw e).
Proof. intros w. apply same_settings_refl. Qed.

Lemma keeps_normalise {B A} (e : error) :
  keeps_settings (B := B) (A := A) (normalise e).
Proof.
  destruct e as [[resp | ] | st text u | msg]; intros w;
    apply same_settings_refl.
Qed.

Lemma keeps_get_field {B A} (f : Client -> A) :
  keeps_settings (B := B) (get_field f).
Proof. intros w. apply same_settings_refl. Qed.

Lemma keeps_axios {B} (req : request) : keeps_settings (B := B) (axios req).
Proof.
  intros w. unfold axios, settle.
  destruct (hd_error (api w)) as [[lat [b | st text | ]] | ];
    apply same_settings_refl.
Qed.

Lemma keeps_getToken {B} : keeps_settings (B := B) SaasClient.getToken.
Proof.
  intros w. unfold SaasClient.getToken. rewrite try_rethrow.
  unfold bind, get_field, axios_oauth, settle, Date_now, modify_client, ret.
  simpl.
  destruct (oauth w) as [ | [lat [body | st text | ]] rest]; simpl;
    repeat split.
Qed.

Lemma keeps_checkToken {B} : keeps_settings (B := B) SaasClient.checkToken.
Proof.
  unfold SaasClient.checkToken.
  apply keeps_try; [ | intros e; apply keeps_throw].
  apply keeps_bind; [apply keeps_get_field | intros tok].
  apply keeps_bind; [apply keeps_get_field | intros expiry].
  apply keeps_bind; [intros w; apply same_settings_refl | intros t].
  apply keeps_bind.
  - destruct (negb (truthy tok) || (expiry <? seconds t));
      [ | apply keeps_ret].
    apply keeps_bind; [apply keeps_getToken | intros granted].
    intros w. repeat split.
  - intros _. apply keeps_bind; [apply keeps_get_field | intros pause].
    apply keeps_bind; [intros w; apply same_settings_refl | intros _].
    apply keeps_ret.
Qed.

Lemma keeps_call {B} (method : verb) (url : string) (body : payload) :
  keeps_settings (B := B) (SaasClient.call method url body).
Proof.
  unfold SaasClient.call.
  apply keeps_bind; [apply keeps_get_field | intros site].
  apply keeps_bind; [apply keeps_get_field | intros ver].
  apply keeps_bind; [apply keeps_get_field | intros tok].
  apply keeps_axios.
Qed.

Lemma keeps_get {B} (url : string) :
  keeps_settings (B := B) (SaasClient.get url).
Proof.
  unfold SaasClient.get.
  apply keeps_try; [ | intros e; apply keeps_normalise].
  apply keeps_bind; [apply keeps_checkToken | intros _; apply keeps_call].
Qed.

Lemma keeps_patch {B} (url : string) (body : payload) :
  keeps_settings (B := B) (SaasClient.patch url body).
Proof.
  unfold SaasClient.patch.
  apply keeps_try; [ | intros e; apply keeps_throw].
  apply keeps_bind; [apply keeps_checkToken | intros _; apply keeps_call].
Qed.

Lemma keeps_next_loop {T} (fuel : nat) :
  forall (next_url : option string) (acc : list T),
    keeps_settings (SaasClient.next_loop fuel next_url acc).
Proof.
  induction fuel as [ | fuel IH]; intros next_url acc.
  - intros w. exact I.
  - cbn [SaasClient.next_loop].
    destruct (truthy next_url); [ | apply keeps_ret].
    destruct next_url as [url | ]; [ | apply keeps_throw].
    apply keeps_bind; [apply keeps_get | intros data; apply IH].
Qed.

Lemma keeps_changes_loop {T} (topic : string) (fuel : nat) :
  forall (remaining cp : Z) (acc : list T),
    keeps_settings (SaasClient.changes_loop fuel topic remaining cp acc).
Proof.
  induction fuel as [ | fuel IH]; intros remaining cp acc.
  - intros w. exact I.
  - cbn [SaasClient.changes_loop].
    destruct (0 <? remaining); [ | apply keeps_ret].
    apply keeps_bind; [apply keeps_get | intros data; apply IH].
Qed.

(** X10. No operation of the first class ever changes the base URL, the
    client identifier, the secret, the throttle delay or the version of its
    client, whether it returns or throws: the five verbs, the page and
    checkpoint walkers and the tag operations leave them as the constructor
    set them. *)
Theorem operations_keep_settings :
  (forall B url body,
      keeps_settings (B := B) (SaasClient.get url)
      /\ keeps_settings (B := B) (SaasClient.post url body)
      /\ keeps_settings (B := B) (SaasClient.patch url body)
      /\ keeps_settings (B := B) (SaasClient.put url body)
      /\ keeps_settings (B := B) (SaasClient.delete url body))
  /\ (forall T fuel options ids,
         keeps_settings (SaasClient.getAllDetections (T := T) fuel options)
         /\ keeps_settings (SaasClient.getAllAccounts (T := T) fuel options)
         /\ keeps_settings (SaasClient.getDetections (T := T) fuel ids)
         /\ keeps_settings (SaasClient.getAccounts (T := T) fuel ids)
         /\ keeps_settings (SaasClient.getAssignments (T := T) fuel)
         /\ keeps_settings (SaasClient.getUsers (T := T) fuel))
  /\ (forall T fuel checkpoint,
         keeps_settings (SaasClient.getAccountChanges (T := T) fuel checkpoint)
         /\ keeps_settings
              (SaasClient.getDetectionChanges (T := T) fuel checkpoint))
  /\ (forall id new tag,
         keeps_settings (SaasClient.addDetectionTags id new)
         /\ keeps_settings (SaasClient.deleteDetectionTag id tag)
         /\ keeps_settings (SaasClient.addAccountTags id new)
         /\ keeps_settings (SaasClient.deleteAccountTag id tag)
         /\ keeps_settings (SaasClient.addHostTags id new)
         /\ keeps_settings (SaasClient.deleteHostTag id tag)).
Proof.
  assert (Hverb : forall B method url body,
             keeps_settings (B := B)
               (SaasClient.checkToken ;; SaasClient.call method url body)).
  { intros B method url body.
    apply keeps_bind; [apply keeps_checkToken | intros _; apply keeps_call]. }
  assert (Hrethrow : forall B A (m : M B A),
             keeps_settings m ->
             keeps_settings (try_catch m (fun err => throw err))).
  { intros B A m Hm. apply keeps_try; [exact Hm | intros e; apply keeps_throw]. }
  assert (Hread : forall path,
             keeps_settings
               (try_catch (data <- SaasClient.get (B := tags_body) path ;;
                           ret (tags data))
                          (fun err => throw err))).
  { intros path. apply Hrethrow.
    apply keeps_bind; [apply keeps_get | intros data; apply keeps_ret]. }
  split; [ | split; [ | split]].
  - intros B url body.
    split; [apply keeps_get | ].
    split; [apply keeps_try; [apply Hverb | intros e; apply keeps_normalise] | ].
    split; [apply keeps_patch | ].
    split; [apply keeps_try; [apply Hverb | intros e; apply keeps_normalise] | ].
    apply Hrethrow, Hverb.
  - intros T fuel options ids.
    split; [apply Hrethrow, keeps_next_loop | ].
    split; [apply Hrethrow, keeps_next_loop | ].
    split; [apply Hrethrow, keeps_next_loop | ].
    split; [apply Hrethrow, keeps_next_loop | ].
    split; apply Hrethrow, keeps_next_loop.
  - intros T fuel checkpoint.
    split; apply Hrethrow, keeps_changes_loop.
  - intros id new tag.
    assert (Hrmw : forall path (change : list string -> list string),
               keeps_settings
                 (try_catch
                    (existingTags <-
                       try_catch (data <- SaasClient.get (B := tags_body) path ;;
                                  ret (tags data))
                                 (fun err => throw err) ;;
                     SaasClient.patch path (TagsData (change existingTags)))
                    (fun err => throw err))).
    { intros path change. apply Hrethrow.
      apply keeps_bind; [exact (Hread path) | ].
      intros existing. apply keeps_patch. }
    split; [exact (Hrmw _ (fun existingTags => (new ++ existingTags)%list)) | ].
    split; [exact (Hrmw _ (fun existingTags =>
                             delete_tag_loop (List.length existingTags) tag
                                             existingTags)) | ].
    split; [exact (Hrmw _ (fun existingTags => (new ++ existingTags)%list)) | ].
    split; [exact (Hrmw _ (fun existingTags =>
                             delete_tag_loop (List.length existingTags) tag
                                             existingTags)) | ].
    split; [exact (Hrmw _ (fun existingTags => (new ++ existingTags)%list)) | ].
    exact (Hrmw _ (fun existingTags =>
                     delete_tag_loop (List.length existingTags) tag
                                     existingTags)).
Qed.

(** X11. [#get], [#post] and [#put] never throw a transport error with a
    response attached, in any world and whatever failed, the exchange or the
    call itself. *)
Theorem normalising_verbs_never_leak {B} (w : World B) (url : string)
        (body : payload) (resp : response) :
  thrown (SaasClient.get url w) <> Some (AxiosError (Some resp))
  /\ thrown (SaasClient.post url body w) <> Some (AxiosError (Some resp))
  /\ thrown (SaasClient.put url body w) <> Some (AxiosError (Some resp)).
Proof.
  assert (Hcatch : forall m : M B B,
             thrown (try_catch m normalise w)
             <> Some (AxiosError (Some resp))).
  { intros m. unfold try_catch.
    destruct (m w) as [[[b | e] w1] | ]; simpl; try discriminate.
    destruct e as [[r | ] | st text u | msg]; simpl; discriminate. }
  repeat split; apply Hcatch.
Qed.

(** ** Further properties: the throttle *)

Lemma checkToken_returns {B} (w w0 : World B) (ok : bool) :
  SaasClient.checkToken w = Some (Return ok, w0) ->
  now w + sleepTime (client w) <= now w0 /\ api w0 = api w.
Proof.
  unfold SaasClient.checkToken, SaasClient.getToken, SaasClient.sleep.
  run_token_check w; intros H; try discriminate H;
    injection H as _ <-; simpl; split; (lia || reflexivity).
Qed.

Lemma verb_returns {B} (method : verb) (url : string) (body : payload)
      (w w1 : World B) (b : B) :
  (SaasClient.checkToken ;; SaasClient.call method url body) w
  = Some (Return b, w1) ->
  now w + sleepTime (client w) <= now w1
  /\ S (List.length (api w1)) = List.length (api w).
Proof.
  unfold bind.
  destruct (SaasClient.checkToken w) as [[[ok | e] w0] | ] eqn:Hcheck;
    try discriminate.
  destruct (checkToken_returns _ _ _ Hcheck) as (Htime & Hapi).
  rewrite call_run. unfold settle.
  destruct w0 as [c0 t0 oa0 ap0 tr0]; simpl in *; subst ap0.
  destruct (api w) as [ | [lat [b' | st text | ]] rest]; simpl;
    intros H; try discriminate H.
  injection H as _ <-. simpl. split; [lia | reflexivity].
Qed.

Lemma normalising_returns {B A} (m : M B A) (w w1 : World B) (a : A) :
  try_catch m normalise w = Some (Return a, w1) ->
  m w = Some (Return a, w1).
Proof.
  unfold try_catch.
  destruct (m w) as [[[a' | e] w0] | ]; try discriminate; [trivial | ].
  destruct e as [[resp | ] | st text u | msg]; discriminate.
Qed.

Lemma get_returns_later {B} (path : string) (w w1 : World B) (b : B) :
  SaasClient.get path w = Some (Return b, w1) ->
  now w + sleepTime (client w) <= now w1
  /\ S (List.length (api w1)) = List.length (api w)
  /\ sleepTime (client w1) = sleepTime (client w).
Proof.
  intros Hget.
  pose proof (keeps_get path w) as Hkeep. rewrite Hget in Hkeep.
  destruct Hkeep as (_ & _ & _ & Hpause & _).
  unfold SaasClient.get in Hget. apply normalising_returns in Hget.
  destruct (verb_returns _ _ _ _ _ _ Hget) as (Htime & Hapi).
  repeat split; assumption.
Qed.

(** X12. Every verb call that returns has waited for the throttle: the clock
    reads at least [sleepTime] more than when the call began. *)
Theorem verbs_wait_for_throttle {B} (w w' : World B) (url : string)
        (body : payload) (b : B) :
  (SaasClient.get url w = Some (Return b, w') ->
   now w + sleepTime (client w) <= now w')
  /\ (SaasClient.post url body w = Some (Return b, w') ->
      now w + sleepTime (client w) <= now w')
  /\ (SaasClient.patch url body w = Some (Return b, w') ->
      now w + sleepTime (client w) <= now w')
  /\ (SaasClient.put url body w = Some (Return b, w') ->
      now w + sleepTime (client w) <= now w')
  /\ (SaasClient.delete url body w = Some (Return b, w') ->
      now w + sleepTime (client w) <= now w').
Proof.
  unfold SaasClient.get, SaasClient.post, SaasClient.put, SaasClient.patch,
    SaasClient.delete.
  rewrite !try_rethrow.
  repeat split; intros H; try apply normalising_returns in H;
    exact (proj1 (verb_returns _ _ _ _ _ _ H)).
Qed.

Lemma fetch_waits_half_a_second :
  exists w',
    SaasClient.get "/detections/1" one_answer = Some (Return tt, w')
    /\ now one_answer + 500 <= now w'.
Proof.
  eexists. split; [vm_compute; reflexivity | ].
  refine (proj1 (verbs_wait_for_throttle one_answer _ "/detections/1"
                                         NoData tt) _).
  vm_compute. reflexivity.
Defined.

Lemma fetch_serves_later {T} (ps : list (page T)) :
  forall (w w' : World (page T)) (path : string),
    fetch_serves w path ps w' ->
    now w + Z.of_nat (List.length ps) * sleepTime (client w) <= now w'
    /\ sleepTime (client w') = sleepTime (client w).
Proof.
  induction ps as [ | p ps IH]; intros w w' path Hs; simpl in Hs.
  - subst w'. simpl. split; [lia | reflexivity].
  - destruct Hs as (w1 & Hget & Hs).
    destruct (get_returns_later _ _ _ _ Hget) as (Htime & _ & Hpause).
    destruct (IH _ _ _ Hs) as (Hrest & Hpause').
    rewrite Hpause in Hrest, Hpause'.
    split; [ | exact Hpause'].
    cbn [List.length]. lia.
Qed.

Lemma fetch_serves_events_later {T} (topic : string)
      (ps : list (event_page T)) :
  forall (w w' : World (event_page T)) (cp : Z),
    fetch_serves_events w topic cp ps w' ->
    now w + Z.of_nat (List.length ps) * sleepTime (client w) <= now w'
    /\ sleepTime (client w') = sleepTime (client w).
Proof.
  induction ps as [ | p ps IH]; intros w w' cp Hs; simpl in Hs.
  - subst w'. simpl. split; [lia | reflexivity].
  - destruct Hs as (w1 & Hget & Hs).
    destruct (get_returns_later _ _ _ _ Hget) as (Htime & _ & Hpause).
    destruct (IH _ _ _ Hs) as (Hrest & Hpause').
    rewrite Hpause in Hrest, Hpause'.
    split; [ | exact Hpause'].
    cbn [List.length]. lia.
Qed.

(** X13. A walk that returns after fetch served [n] pages has taken at least
    [n] times the throttle delay: with the delay of 500 ms, a thousand pages
    take more than eight minutes whatever the network. *)
Theorem walk_waits_once_per_page :
  (forall T (w w' : World (page T)) options ps last fuel,
      Forall (fun p => truthy (next p) = true) ps ->
      truthy (next last) = false ->
      (List.length (ps ++ [last]) < fuel)%nat ->
      fetch_serves w (first_path "/detections" options) (ps ++ [last]) w' ->
      SaasClient.getAllDetections fuel options w
      = Some (Return (List.concat (map results (ps ++ [last]))), w')
      /\ now w + Z.of_nat (List.length (ps ++ [last])) * sleepTime (client w)
         <= now w')
  /\ (forall T (w w' : World (event_page T)) checkpoint ps last fuel,
         Forall (fun p => 0 < remaining_count p) ps ->
         remaining_count last <= 0 ->
         (List.length (ps ++ [last]) < fuel)%nat ->
         fetch_serves_events w "/events/account_scoring"
                             (match checkpoint with Some c => c | None => 0 end)
                             (ps ++ [last]) w' ->
         SaasClient.getAccountChanges fuel checkpoint w
         = Some (Return (List.concat (map events (ps ++ [last]))), w')
         /\ now w + Z.of_nat (List.length (ps ++ [last])) * sleepTime (client w)
            <= now w').
Proof.
  split.
  - intros T w w' options ps last fuel Hps Hlast Hfuel Hs.
    split; [ | exact (proj1 (fetch_serves_later _ _ _ _ Hs))].
    unfold SaasClient.getAllDetections. rewrite try_rethrow.
    fold (extra_of options).
    exact (next_loop_serves ps w w' _ [] last fuel Hs Hps Hlast
                            (first_url_truthy _ _) Hfuel).
  - intros T w w' checkpoint ps last fuel Hps Hlast Hfuel Hs.
    split; [ | exact (proj1 (fetch_serves_events_later _ _ _ _ _ Hs))].
    unfold SaasClient.getAccountChanges. rewrite try_rethrow.
    exact (changes_loop_serves _ ps w w' 1 _ [] last fuel Hs
                               ltac:(lia) Hps Hlast Hfuel).
Qed.

Lemma three_pages_take_three_waits :
  exists w',
    SaasClient.getAllDetections 4 (Some []) fresh_three_pages
    = Some (Return [11; 12; 13; 14; 15], w')
    /\ now fresh_three_pages + 1500 <= now w'.
Proof.
  assert (Hs : exists w',
             fetch_serves fresh_three_pages
                          (first_path "/detections" (Some []))
                          (three_pages ++ [third_page]) w').
  { eexists. simpl.
    eexists. split; [vm_compute; reflexivity | ].
    eexists. split; [vm_compute; reflexivity | ].
    eexists. split; [vm_compute; reflexivity | ].
    reflexivity. }
  destruct Hs as (w' & Hs).
  exists w'.
  exact (proj1 walk_waits_once_per_page Z fresh_three_pages w' (Some [])
               three_pages third_page 4%nat
               ltac:(repeat constructor) eq_refl ltac:(simpl; lia) Hs).
Defined.

(** ** Further properties: walks that fail, other walks *)

Lemma next_loop_aborts {T} (ps : list (page T)) :
  forall (w w1 w2 : World (page T)) (url : string) (acc : list T)
         (e : error) (fuel : nat),
    fetch_serves w (replace_first tail_api_v3 url) ps w1 ->
    Forall (fun p => truthy (next p) = true) ps ->
    SaasClient.get (path_after (replace_first tail_api_v3 url) ps) w1
    = Some (Throw e, w2) ->
    truthy (Some url) = true ->
    (List.length ps < fuel)%nat ->
    SaasClient.next_loop fuel (Some url) acc w = Some (Throw e, w2).
Proof.
  induction ps as [ | p ps IH];
    intros w w1 w2 url acc e fuel Hs Hps Hfail Hurl Hfuel;
    (destruct fuel as [ | fuel]; [simpl in Hfuel; lia | ]);
    cbn [SaasClient.next_loop]; rewrite Hurl; unfold bind at 1.
  - simpl in Hs, Hfail. subst w1. rewrite Hfail. reflexivity.
  - destruct Hs as (w' & Hget & Hs).
    inversion Hps as [ | p' ps' Hp Hps']; subst p' ps'.
    rewrite Hget. cbn [path_after] in Hfail.
    unfold next_path in Hs, Hfail.
    destruct (next p) as [url' | ] eqn:Hnext; [ | discriminate Hp].
    apply (IH w' w1 w2 url' _ e fuel Hs Hps' Hfail Hp).
    simpl in Hfuel. lia.
Qed.

Lemma changes_loop_aborts {T} (topic : string) (ps : list (event_page T)) :
  forall (w w1 w2 : World (event_page T)) (remaining cp : Z)
         (acc : list T) (e : error) (fuel : nat),
    fetch_serves_events w topic cp ps w1 ->
    0 < remaining ->
    Forall (fun p => 0 < remaining_count p) ps ->
    SaasClient.get (changes_path topic (checkpoint_after cp ps)) w1
    = Some (Throw e, w2) ->
    (List.length ps < fuel)%nat ->
    SaasClient.changes_loop fuel topic remaining cp acc w
    = Some (Throw e, w2).
Proof.
  induction ps as [ | p ps IH];
    intros w w1 w2 remaining cp acc e fuel Hs Hrem Hps Hfail Hfuel;
    (destruct fuel as [ | fuel]; [simpl in Hfuel; lia | ]);
    cbn [SaasClient.changes_loop];
    apply Z.ltb_lt in Hrem; rewrite Hrem; unfold bind at 1;
    fold (changes_path topic cp).
  - simpl in Hs, Hfail. subst w1. rewrite Hfail. reflexivity.
  - destruct Hs as (w' & Hget & Hs).
    inversion Hps as [ | p' ps' Hp Hps']; subst p' ps'.
    rewrite Hget. cbn [checkpoint_after] in Hfail.
    apply (IH w' w1 w2 _ _ _ e fuel Hs Hp Hps' Hfail).
    simpl in Hfuel. lia.
Qed.

(** X14. A walk keeps nothing of a sequence that fails: when fetch has served
    some pages, each asking for more, and then throws, the walk throws that
    very error and returns none of the results gathered so far. *)
Theorem walk_aborts_on_failure :
  (forall T (w w1 w2 : World (page T)) options ps e fuel,
      Forall (fun p => truthy (next p) = true) ps ->
      (List.length ps < fuel)%nat ->
      fetch_serves w (first_path "/detections" options) ps w1 ->
      SaasClient.get (path_after (first_path "/detections" options) ps) w1
      = Some (Throw e, w2) ->
      SaasClient.getAllDetections fuel options w = Some (Throw e, w2))
  /\ (forall T (w w1 w2 : World (event_page T)) checkpoint ps e fuel,
         Forall (fun p => 0 < remaining_count p) ps ->
         (List.length ps < fuel)%nat ->
         let start := match checkpoint with Some c => c | None => 0 end in
         fetch_serves_events w "/events/account_scoring" start ps w1 ->
         SaasClient.get (changes_path "/events/account_scoring"
                                      (checkpoint_after start ps)) w1
         = Some (Throw e, w2) ->
         SaasClient.getAccountChanges fuel checkpoint w
         = Some (Throw e, w2)).
Proof.
  split.
  - intros T w w1 w2 options ps e fuel Hps Hfuel Hs Hfail.
    unfold SaasClient.getAllDetections. rewrite try_rethrow.
    fold (extra_of options).
    exact (next_loop_aborts ps w w1 w2 _ [] e fuel Hs Hps Hfail
                            (first_url_truthy _ _) Hfuel).
  - intros T w w1 w2 checkpoint ps e fuel Hps Hfuel start Hs Hfail.
    unfold SaasClient.getAccountChanges. rewrite try_rethrow.
    exact (changes_loop_aborts _ ps w w1 w2 1 start [] e fuel Hs
                               ltac:(lia) Hps Hfail Hfuel).
Qed.

Lemma walk_loses_first_page :
  thrown (SaasClient.getAllDetections 3 (Some []) failing_second_page)
  = Some (Normalized 500 "Internal Server Error"
            "https://brain.portal.vectra.ai/api/v3/detections?page=2").
Proof.
  assert (Hs : exists w1 w2,
             fetch_serves failing_second_page
                          (first_path "/detections" (Some []))
                          [first_page] w1
             /\ SaasClient.get
                  (path_after (first_path "/detections" (Some []))
                              [first_page]) w1
                = Some (Throw (Normalized 500 "Internal Server Error"
                                 "https://brain.portal.vectra.ai/api/v3/detections?page=2"),
                        w2)).
  { eexists. eexists. split.
    - simpl. eexists. split; [vm_compute; reflexivity | reflexivity].
    - vm_compute. reflexivity. }
  destruct Hs as (w1 & w2 & Hs & Hfail).
  rewrite (proj1 walk_aborts_on_failure Z failing_second_page w1 w2
                 (Some []) [first_page] _ 3%nat
                 ltac:(repeat constructor) ltac:(simpl; lia) Hs Hfail).
  reflexivity.
Defined.



(** ** Further properties: options, the second class, termination *)

Lemma append_assoc (a b c : string) : (a ++ b) ++ c = a ++ b ++ c.
Proof. induction a as [ | x a IH]; simpl; [ | rewrite IH]; reflexivity. Qed.

Lemma append_empty (a : string) : a ++ "" = a.
Proof. induction a as [ | x a IH]; simpl; [ | rewrite IH]; reflexivity. Qed.

Lemma lookup_own_key (k v : string) (before after : list (string * string)) :
  ~ In k (map fst before) ->
  lookup k (before ++ (k, v) :: after) = v.
Proof.
  induction before as [ | [k' v'] before IH]; intros Hk; simpl.
  - rewrite String.eqb_refl. reflexivity.
  - destruct (String.eqb_spec k k') as [-> | Hne].
    + exfalso. apply Hk. left. reflexivity.
    + apply IH. intros Hin. apply Hk. right. exact Hin.
Qed.

Lemma add_options_renders (later : list (string * string)) :
  forall (before : list (string * string)) (extra : string),
    NoDup (map fst (before ++ later)) ->
    add_options (map fst later) (before ++ later) extra
    = extra ++ flatten (map (fun kv => "&" ++ fst kv ++ "=" ++ snd kv) later).
Proof.
  induction later as [ | [k v] later IH]; intros before extra Hkeys;
    cbn [map add_options flatten fst snd].
  - rewrite append_empty. reflexivity.
  - rewrite lookup_own_key.
    2:{ rewrite map_app in Hkeys. simpl in Hkeys.
        apply NoDup_remove_2 in Hkeys.
        intros Hin. apply Hkeys. apply in_or_app. left. exact Hin. }
    replace (before ++ (k, v) :: later)%list
      with ((before ++ [(k, v)]) ++ later)%list in *
      by (rewrite <- app_assoc; reflexivity).
    rewrite (IH _ _ Hkeys). rewrite !append_assoc. reflexivity.
Qed.

Lemma no_vectra_after_page (pairs : string) :
  occurs "vectra" pairs = false ->
  occurs "vectra" ("/detections?page=1" ++ pairs) = false
  /\ occurs "vectra" ("/accounts?page=1" ++ pairs) = false.
Proof.
  intros Hpairs. split; cbn; exact Hpairs.
Qed.

(** X16. For an options object, whose keys are distinct, [getAllDetections]
    and [getAllAccounts] ask for their first page at [?page=1] followed by
    one [&key=value] per option, in the order of the keys and with nothing
    encoded or dropped (the host pattern permitting: no [vectra] among the
    options); the rest of the walk goes as without options. *)
Theorem options_become_query_pairs {T} (w w' : World (page T))
        (o : list (string * string))
        (ps : list (page T)) (last : page T) (fuel : nat) :
  NoDup (map fst o) ->
  let pairs := flatten (map (fun kv => "&" ++ fst kv ++ "=" ++ snd kv) o) in
  occurs "vectra" pairs = false ->
  Forall (fun p => truthy (next p) = true) ps ->
  truthy (next last) = false ->
  (List.length (ps ++ [last]) < fuel)%nat ->
  (fetch_serves w ("/detections?page=1" ++ pairs) (ps ++ [last]) w' ->
   SaasClient.getAllDetections fuel (Some o) w
   = Some (Return (List.concat (map results (ps ++ [last]))), w')
   /\ fetched (trace w')
      = (fetched (trace w)
           ++ url_of (client w) ("/detections?page=1" ++ pairs)
           :: map (url_of (client w)) (map next_path ps))%list)
  /\ (fetch_serves w ("/accounts?page=1" ++ pairs) (ps ++ [last]) w' ->
      SaasClient.getAllAccounts fuel (Some o) w
      = Some (Return (List.concat (map results (ps ++ [last]))), w')
      /\ fetched (trace w')
         = (fetched (trace w)
              ++ url_of (client w) ("/accounts?page=1" ++ pairs)
              :: map (url_of (client w)) (map next_path ps))%list).
Proof.
  intros Hkeys pairs Hpairs Hps Hlast Hfuel.
  assert (Hextra : add_options (map fst o) o "" = pairs)
    by exact (add_options_renders o [] "" Hkeys).
  assert (Hsame : forall first,
             occurs "vectra" first = false ->
             replace_first tail_api_v3 first = first).
  { intros first Hfirst.
    apply no_vectra_no_replace; [ | exact Hfirst].
    intros s' H. exact (proj1 (tails_need_vectra s' H)). }
  destruct (no_vectra_after_page pairs Hpairs) as (Hdet & Hacc).
  split; intros Hs.
  - unfold SaasClient.getAllDetections. rewrite try_rethrow, Hextra.
    pose proof (Hsame _ Hdet) as Hpath.
    split.
    + apply (next_loop_serves ps w w' _ [] last fuel);
        [ | exact Hps | exact Hlast | reflexivity | exact Hfuel].
      rewrite Hpath. exact Hs.
    + pose proof (fetch_serves_fetched _ _ _ _ Hs) as Hf.
      rewrite paths_of_snoc in Hf. exact Hf.
  - unfold SaasClient.getAllAccounts. rewrite try_rethrow, Hextra.
    pose proof (Hsame _ Hacc) as Hpath.
    split.
    + apply (next_loop_serves ps w w' _ [] last fuel);
        [ | exact Hps | exact Hlast | reflexivity | exact Hfuel].
      rewrite Hpath. exact Hs.
    + pose proof (fetch_serves_fetched _ _ _ _ Hs) as Hf.
      rewrite paths_of_snoc in Hf. exact Hf.
Qed.

Lemma options_of_the_readme :
  exists w',
    SaasClient.getAllDetections
      4 (Some [("t_score_gte", "1"); ("state", "active")])
      (world_of brain (map in_time (three_pages ++ [third_page])%list))
    = Some (Return [11; 12; 13; 14; 15], w')
    /\ fetched (trace w')
       = [ "https://brain.portal.vectra.ai/api/v3/detections?page=1&t_score_gte=1&state=active";
           "https://brain.portal.vectra.ai/api/v3/detections?page=2";
           "https://brain.portal.vectra.ai/api/v3/detections?page=3" ].
Proof.
  assert (Hs : exists w',
             fetch_serves
               (world_of brain (map in_time (three_pages ++ [third_page])%list))
               "/detections?page=1&t_score_gte=1&state=active"
               (three_pages ++ [third_page]) w').
  { eexists. simpl.
    eexists. split; [vm_compute; reflexivity | ].
    eexists. split; [vm_compute; reflexivity | ].
    eexists. split; [vm_compute; reflexivity | ].
    reflexivity. }
  destruct Hs as (w' & Hs).
  destruct (proj1 (options_become_query_pairs
                     (world_of brain
                               (map in_time (three_pages ++ [third_page])%list))
                     w' [("t_score_gte", "1"); ("state", "active")]
                     three_pages third_page 4
                     ltac:(repeat constructor; simpl; intuition discriminate)
                     eq_refl ltac:(repeat constructor) eq_refl
                     ltac:(simpl; lia)) Hs)
    as (Hrun & Hlog).
  exists w'. split; [exact Hrun | rewrite Hlog; reflexivity].
Defined.

(** X17. In the second class the two tag-removal operations never get to
    their PATCH: once the tags are read they throw a [TypeError], whatever
    the tags and the tag to remove, and the tags on the server stay as they
    were. *)
Theorem second_class_deleteTag_throws (w : World tags_body) (id : Z)
        (tag : string) (existing : list string) r rest :
  api w = r :: rest -> answer r = Ok (mkTagsBody existing) ->
  token_valid_at (client w) (now w) ->
  SaasClient2.deleteDetectionTag id tag w
  = Some (Throw (TypeError
                   "Cannot read properties of undefined (reading 'length')"),
          served w [r] rest
                 [api_request2 (client w) GET
                               ("/tagging/detection/" ++ show id) NoData])
  /\ SaasClient2.deleteAccountTag id tag w
     = Some (Throw (TypeError
                      "Cannot read properties of undefined (reading 'length')"),
             served w [r] rest
                    [api_request2 (client w) GET
                                  ("/tagging/account/" ++ show id) NoData]).
Proof.
  intros Hq Ha Hv.
  unfold SaasClient2.deleteDetectionTag, SaasClient2.getDetectionTags,
    SaasClient2.deleteAccountTag, SaasClient2.getAccountTags.
  unfold bind.
  rewrite !(get2_served _ w r rest _ Hv Hq Ha).
  split; reflexivity.
Qed.

Lemma second_class_deleteTag_sends_no_patch :
  map r_method (sent (SaasClient2.deleteDetectionTag 7 "old" tagged_old))
  = [GET]
  /\ thrown (SaasClient2.deleteDetectionTag 7 "old" tagged_old)
     = Some (TypeError
               "Cannot read properties of undefined (reading 'length')").
Proof.
  rewrite (proj1 (second_class_deleteTag_throws
                    tagged_old 7 "old" ["old"] _ _ eq_refl eq_refl
                    ltac:(split; [reflexivity | vm_compute; discriminate]))).
  split; reflexivity.
Defined.

Lemma get_finishes {B} (url : string) (w : World B) :
  exists r w1, SaasClient.get url w = Some (r, w1).
Proof.
  unfold SaasClient.get, try_catch, bind.
  destruct (checkToken_outcome w) as (r & w0 & posted & Hrun & _).
  rewrite Hrun. destruct r as [ok | e].
  - rewrite call_run. unfold settle.
    destruct (hd_error (api w0)) as [[lat [b | st text | ]] | ]; simpl;
      eexists; eexists; reflexivity.
  - destruct e as [[resp | ] | st text u | msg]; simpl;
      eexists; eexists; reflexivity.
Qed.

Lemma next_loop_finishes {T} (fuel : nat) :
  forall (w : World (page T)) (next_url : option string) (acc : list T),
    (List.length (api w) < fuel)%nat ->
    exists r w', SaasClient.next_loop fuel next_url acc w = Some (r, w').
Proof.
  induction fuel as [ | fuel IH]; intros w next_url acc Hfuel; [lia | ].
  cbn [SaasClient.next_loop].
  destruct (truthy next_url); [ | eexists; eexists; reflexivity].
  destruct next_url as [url | ]; [ | eexists; eexists; reflexivity].
  unfold bind at 1.
  destruct (get_finishes (replace_first tail_api_v3 url) w)
    as (r & w1 & Hget).
  rewrite Hget. destruct r as [data | e]; [ | eexists; eexists; reflexivity].
  apply IH.
  destruct (get_returns_later _ _ _ _ Hget) as (_ & Hapi & _). lia.
Qed.

Lemma changes_loop_finishes {T} (topic : string) (fuel : nat) :
  forall (w : World (event_page T)) (remaining cp : Z) (acc : list T),
    (List.length (api w) < fuel)%nat ->
    exists r w',
      SaasClient.changes_loop fuel topic remaining cp acc w = Some (r, w').
Proof.
  induction fuel as [ | fuel IH]; intros w remaining cp acc Hfuel; [lia | ].
  cbn [SaasClient.changes_loop].
  destruct (0 <? remaining); [ | eexists; eexists; reflexivity].
  unfold bind at 1.
  destruct (get_finishes (topic ++ "?limit=1000&from=" ++ show cp) w)
    as (r & w1 & Hget).
  rewrite Hget. destruct r as [data | e]; [ | eexists; eexists; reflexivity].
  apply IH.
  destruct (get_returns_later _ _ _ _ Hget) as (_ & Hapi & _). lia.
Qed.

(** X18. A walk makes progress at every turn: each turn of its loop consumes
    one answer of the API server or ends the walk. So against a server with
    [n] answers left every walk ends, by returning or by throwing, within
    [n + 1] turns. *)
Theorem walks_end_within_the_answers :
  (forall T (w : World (page T)) options ids fuel,
      (List.length (api w) < fuel)%nat ->
      (exists r w', SaasClient.getAllDetections fuel options w = Some (r, w'))
      /\ (exists r w', SaasClient.getAllAccounts fuel options w = Some (r, w'))
      /\ (exists r w', SaasClient.getDetections fuel ids w = Some (r, w'))
      /\ (exists r w', SaasClient.getAccounts fuel ids w = Some (r, w'))
      /\ (exists r w', SaasClient.getAssignments fuel w = Some (r, w'))
      /\ (exists r w', SaasClient.getUsers fuel w = Some (r, w')))
  /\ (forall T (w : World (event_page T)) checkpoint fuel,
         (List.length (api w) < fuel)%nat ->
         (exists r w',
             SaasClient.getAccountChanges fuel checkpoint w = Some (r, w'))
         /\ (exists r w',
                SaasClient.getDetectionChanges fuel checkpoint w
                = Some (r, w'))).
Proof.
  split.
  - intros T w options ids fuel Hfuel.
    unfold SaasClient.getAllDetections, SaasClient.getAllAccounts,
      SaasClient.getDetections, SaasClient.getAccounts,
      SaasClient.getAssignments, SaasClient.getUsers.
    rewrite !try_rethrow.
    repeat split; apply next_loop_finishes; exact Hfuel.
  - intros T w checkpoint fuel Hfuel.
    unfold SaasClient.getAccountChanges, SaasClient.getDetectionChanges.
    rewrite !try_rethrow.
    split; apply changes_loop_finishes; exact Hfuel.
Qed.

Lemma endless_pages_end_with_the_server :
  exists r w',
    SaasClient.getAllDetections 3 (Some [])
      (world_of brain [in_time first_page; in_time first_page])
    = Some (r, w').
Proof.
  exact (proj1 (proj1 walks_end_within_the_answers Z
                      (world_of brain [in_time first_page; in_time first_page])
                      (Some []) [] 3%nat ltac:(simpl; lia))).
Defined.
